(** * VideoPlayerApp: notification store, window-close helper, player view

    A shallow embedding of the logic of [composables] (the notification
    store and [useWindowClose]) and of [views/Player.vue] (the playback
    controller), followed by the properties proved about them.

    JavaScript numbers that only ever hold integers (indices, timeouts in
    milliseconds) are [Z]; numbers that hold times, volumes and speeds are
    exact rationals [Q], with [toFixed] written out as the decimal rounding it
    performs.  The code computes in binary64: the rational model agrees with
    it where every value involved is exact in binary64 (integers below 2^53,
    copies and comparisons of stored values) and on the whole tenths that
    [parseFloat(x.toFixed(1))] produces; the statements below that involve
    arithmetic are kept to those values.  Reactive refs are record fields of an explicit state that is
    passed from call to call; calls into the host (Tauri, the DOM, the uuid
    package) go through an explicit [Host] record or counter. *)

From Stdlib Require Import ZArith QArith Qround Lqa String Ascii List Lia.
From stdpp Require Import base list strings pretty gmap.

Open Scope string_scope.

(* ===================================================================== *)
(** ** Notification store ([useNotification]) *)
(* ===================================================================== *)

Module Notify.

(** What a JavaScript call hands back: [add] and [remove] have no [return]
    statement, so they evaluate to [undefined]. *)
Inductive JsReturn :=
| JsUndefined
| JsString (s : string).

(** Number.MAX_SAFE_INTEGER, 2^53 - 1. *)
Definition MAX_SAFE_INTEGER : Z := 9007199254740991.

(** Modelled from the spec: the declarations of [./types] are not part of the
    sources; [Notification] is the argument of [add], with the fields [add]
    reads ([timeout] is optional, it is read through [??]). *)
Record Notification := mkNotification {
  opt_text : string;
  opt_type : string;
  opt_timeout : option Z
}.

(** Modelled from the spec: the persisted entry {id, text, type, timeout}. *)
Record NotificationWithId := mkNotificationWithId {
  id : string;
  text : string;
  type : string;
  timeout : Z
}.

(** The persisted store, together with the two outside resources [add]
    touches: the uuid generator (the number of ids it has handed out so far)
    and the console. *)
Record World := mkWorld {
  notifications : list NotificationWithId;
  uuid_calls : nat;
  console : list Notification
}.

Definition empty_world : World :=
  {| notifications := []; uuid_calls := 0; console := [] |}.

(** [options.timeout === -1 ? Number.MAX_SAFE_INTEGER : options.timeout ?? 0] *)
Definition stored_timeout (t : option Z) : Z :=
  match t with
  | Some v => if (v =? -1)%Z then MAX_SAFE_INTEGER else v
  | None => 0%Z
  end.

(** [add]: [uuid k] is the value the k-th call of [uuid()] returns. *)
Definition add (uuid : nat -> string) (options : Notification) (w : World)
  : JsReturn * World :=
  let uniqueId := uuid (uuid_calls w) in
  (JsUndefined,
   {| notifications :=
        notifications w ++
          [ {| id := uniqueId;
               text := opt_text options;
               type := opt_type options;
               timeout := stored_timeout (opt_timeout options) |} ];
      uuid_calls := S (uuid_calls w);
      console := console w ++ [options] |}).

(** [Array.prototype.findIndex]: the first index whose element satisfies the
    predicate, -1 when there is none. *)
Fixpoint findIndex {A : Type} (p : A -> bool) (l : list A) : Z :=
  match l with
  | [] => (-1)%Z
  | x :: l' =>
      if p x then 0%Z
      else let r := findIndex p l' in
           if (r =? -1)%Z then (-1)%Z else (r + 1)%Z
  end.

(** [splice(i, 1)] for an index [i >= 0]. *)
Definition splice1 {A : Type} (i : Z) (l : list A) : list A :=
  take (Z.to_nat i) l ++ drop (S (Z.to_nat i)) l.

Definition remove (rid : string) (w : World) : JsReturn * World :=
  let indexToRemove := findIndex (fun x => String.eqb (id x) rid) (notifications w) in
  if (indexToRemove >? -1)%Z then
    (JsUndefined,
     {| notifications := splice1 indexToRemove (notifications w);
        uuid_calls := uuid_calls w;
        console := console w |})
  else (JsUndefined, w).

(** A call made on the store by any of its users. *)
Inductive Op :=
| OpAdd (options : Notification)
| OpRemove (rid : string).

Definition step (uuid : nat -> string) (w : World) (o : Op) : World :=
  match o with
  | OpAdd options => snd (add uuid options w)
  | OpRemove rid => snd (remove rid w)
  end.

Definition run (uuid : nat -> string) (ops : list Op) (w : World) : World :=
  fold_left (step uuid) ops w.

Definition is_add (o : Op) : bool :=
  match o with OpAdd _ => true | OpRemove _ => false end.

(** The options of the [add] calls of a sequence, in call order. *)
Fixpoint added (ops : list Op) : list Notification :=
  match ops with
  | [] => []
  | OpAdd options :: ops' => options :: added ops'
  | OpRemove _ :: ops' => added ops'
  end.

(** The entry [add] builds from its argument and the id it drew. *)
Definition entry_of (uniqueId : string) (options : Notification) : NotificationWithId :=
  {| id := uniqueId;
     text := opt_text options;
     type := opt_type options;
     timeout := stored_timeout (opt_timeout options) |}.

(** The entries the [add] calls of a sequence create, in call order: the
    k-th call draws [uuid k]. *)
Definition created (uuid : nat -> string) (ops : list Op) : list NotificationWithId :=
  imap (fun k options => entry_of (uuid k) options) (added ops).

(** Every id in the store is one the generator has handed out. *)
Definition drawn (uuid : nat -> string) (w : World) : Prop :=
  Forall (fun e => exists k, k < uuid_calls w /\ id e = uuid k) (notifications w).

(** A uuid source for concrete runs: the k-th id is k+1 letters long. *)
Fixpoint letters (k : nat) : string :=
  match k with
  | O => "u"
  | S k' => String "u" (letters k')
  end.

End Notify.

(* ===================================================================== *)
(** ** Window-lifecycle helper ([useWindowClose]) *)
(* ===================================================================== *)

Module WindowClose.

(** [disableBlur: boolean | Ref<boolean>]: a plain boolean is captured by
    value, a ref is a location of the reactive heap. *)
Inductive DisableBlur :=
| Plain (b : bool)
| IsRef (r : nat).

(** The part of the application [useWindowClose] acts on. *)
Record Env := mkEnv {
  refs : gmap nat bool;                         (* reactive boolean refs *)
  windows : list string;                        (* labels of the open windows *)
  blur_listeners : list (string * (string * DisableBlur));
      (* window listened on, and the closure (label, disableBlur) *)
  keydown_listeners : list string;              (* mounted Escape handlers *)
  console : list string
}.

(** [disableBlur.value] / [disableBlur], read when the listener runs. A ref
    that holds no boolean reads as [undefined], which is falsy. *)
Definition read_flag (e : Env) (d : DisableBlur) : bool :=
  match d with
  | Plain b => b
  | IsRef r => default false (refs e !! r)
  end.

(** [WebviewWindow.getByLabel(label)]: the window, when one is open. *)
Definition getByLabel (e : Env) (label : string) : bool :=
  bool_decide (label ∈ windows e).

(** [closeWindow]: logs the label, then [window?.close()]. *)
Definition closeWindow (label : string) (e : Env) : Env :=
  {| refs := refs e;
     windows :=
       if getByLabel e label
       then filter (fun l => l ≠ label) (windows e)
       else windows e;
     blur_listeners := blur_listeners e;
     keydown_listeners := keydown_listeners e;
     console := console e ++ [label] |}.

(** The listener passed to [listen("tauri://blur", ...)]. *)
Definition blurHandler (label : string) (d : DisableBlur) (e : Env) : Env :=
  match d with
  | IsRef r => if negb (read_flag e (IsRef r)) then closeWindow label e else e
  | Plain b => if negb b then closeWindow label e else e
  end.

(** [eventHandler]: the keydown listener. *)
Definition eventHandler (label : string) (code : string) (e : Env) : Env :=
  if String.eqb code "Escape" then closeWindow label e else e.

(** The body of [useWindowClose]: the blur listener is attached when the
    window is found ([result?.listen]); the keydown handler is attached by the
    mount hook, see [Mounted] below (instances are told apart by their
    label). *)
Definition useWindowClose (label : string) (d : DisableBlur) (e : Env) : Env :=
  {| refs := refs e;
     windows := windows e;
     blur_listeners :=
       if getByLabel e label
       then blur_listeners e ++ [(label, (label, d))]
       else blur_listeners e;
     keydown_listeners := keydown_listeners e;
     console := console e |}.

Inductive Event :=
| Mounted (label : string)          (* onMounted of the instance for label *)
| Unmounted (label : string)        (* onUnmounted *)
| Blur (win : string)               (* tauri://blur on window win *)
| KeyDown (code : string)           (* keydown on the JS window *)
| SetRef (r : nat) (b : bool).      (* someone assigns ref.value *)

Definition run_blur (win : string) (e : Env) : Env :=
  fold_left
    (fun acc '(w, (label, d)) =>
       if String.eqb w win then blurHandler label d acc else acc)
    (blur_listeners e) e.

Definition run_keydown (code : string) (e : Env) : Env :=
  fold_left (fun acc label => eventHandler label code acc) (keydown_listeners e) e.

Definition dispatch (e : Env) (ev : Event) : Env :=
  match ev with
  | Mounted label =>
      {| refs := refs e; windows := windows e;
         blur_listeners := blur_listeners e;
         keydown_listeners := keydown_listeners e ++ [label];
         console := console e |}
  | Unmounted label =>
      {| refs := refs e; windows := windows e;
         blur_listeners := blur_listeners e;
         keydown_listeners := filter (fun l => l ≠ label) (keydown_listeners e);
         console := console e |}
  | Blur win => run_blur win e
  | KeyDown code => run_keydown code e
  | SetRef r b =>
      {| refs := <[r := b]> (refs e); windows := windows e;
         blur_listeners := blur_listeners e;
         keydown_listeners := keydown_listeners e;
         console := console e |}
  end.

Definition dispatch_all (evs : list Event) (e : Env) : Env :=
  fold_left dispatch evs e.

(** Assignments to refs only. *)
Definition is_write (ev : Event) : bool :=
  match ev with SetRef _ _ => true | _ => false end.

End WindowClose.

(* ===================================================================== *)
(** ** Numbers and strings of the player view *)
(* ===================================================================== *)

Module Js.

(** [a < b] on numbers. *)
Definition ltb (a b : Q) : bool := negb (Qle_bool b a).

(** [a > b] on numbers. *)
Definition gtb (a b : Q) : bool := negb (Qle_bool a b).

(** [parseFloat(x.toFixed(1))]: [toFixed(1)] prints the decimal [n / 10]
    nearest to [x], the larger [n] when two are equally near, and handles a
    negative [x] by printing the sign and rounding [-x]; [parseFloat] reads
    that decimal back. The argument is an exact rational here; the code
    passes a binary64 sum, which can fall on the other side of a tie, so the
    two agree away from the ties, in particular on a whole tenth plus or
    minus 0.1. *)
Definition toFixed1 (x : Q) : Q :=
  if Qle_bool 0 x
  then Qred (Qfloor (x * 10 + (1 # 2)) # 10)
  else Qred (- (Qfloor ((- x) * 10 + (1 # 2)) # 10)).

(** [String.prototype.toLowerCase], on the ASCII letters. *)
Definition lower_ascii (c : ascii) : ascii :=
  let n := nat_of_ascii c in
  if (65 <=? n)%nat && (n <=? 90)%nat then ascii_of_nat (n + 32) else c.

Fixpoint toLowerCase (s : string) : string :=
  match s with
  | EmptyString => EmptyString
  | String c s' => String (lower_ascii c) (toLowerCase s')
  end.

(** [s.substring(start, stop)] for [start <= stop]. *)
Definition substring (start stop : nat) (s : string) : string :=
  String.substring start (stop - start) s.

(** [list.includes(x)] *)
Definition includes (l : list string) (x : string) : bool :=
  existsb (String.eqb x) l.

(** [s.replace(pattern, replacement)] with a string pattern: only the first
    occurrence is replaced. *)
Definition replace (pattern replacement s : string) : string :=
  match String.index 0 pattern s with
  | Some i =>
      String.substring 0 i s ++ replacement ++
      String.substring (i + String.length pattern)
        (String.length s - (i + String.length pattern)) s
  | None => s
  end.

(** Truthiness of an optional string: [undefined], [null] and the empty
    string are falsy. *)
Definition truthy (s : option string) : bool :=
  match s with
  | Some s' => negb (String.eqb s' EmptyString)
  | None => false
  end.

End Js.

(* ===================================================================== *)
(** ** Playback controller ([views/Player.vue]) *)
(* ===================================================================== *)

Module Player.

Definition PLAYBACK_SPEEDS : list Q :=
  [7 # 100; 1 # 10; 1 # 4; 1 # 2; 3 # 4; 1; 5 # 4; 3 # 2; 7 # 4; 2; 5 # 2; 3;
   5; 15 # 2; 10; 12; 14; 16]%Q.

Definition VALID_EXTENSIONS : list string :=
  ["ogg"; "webm"; "mp4"; "mkv"; "mov"; "mp3"].

(** The icons handed to [displayTransformationAlert]. *)
Inductive Icon :=
| Play | Pause | Rewind | FastForward | VolumeX | Volume1 | Volume2.

(** The text handed to [displayTransformationAlert]: the template strings
    [`${amount}s`] and [`${percent}%`] keep their number, the empty text is [NoText]. *)
Inductive AlertText :=
| NoText
| Seconds (amount : Q)
| Percent (value : Q).

(** Modelled from the spec: [History] of [../types], the persisted resume
    record {volume, time, title, isYoutube, video, youtubeCode}. *)
Record History := mkHistory {
  h_volume : Q;
  h_time : Q;
  h_title : option string;
  h_isYoutube : bool;
  h_video : option string;
  h_youtubeCode : option string
}.

(** How a promise of the host settles. *)
Inductive Settled (A : Type) :=
| Resolved (a : A)
| Rejected.
Arguments Resolved {A} a.
Arguments Rejected {A}.

(** What the view asks of its surroundings: the Tauri path, fs, dialog and
    invoke APIs, the media element and the uuid package. *)
Record Host := mkHost {
  uuid : nat -> string;
  basename : string -> option string;        (* None: the promise rejects *)
  extname : string -> option string;         (* None: the promise rejects *)
  file_exists : string -> bool;              (* exists(path) *)
  convertFileSrc : string -> string;
  play_resolves : bool;                      (* videoPlayer.play() *)
  downloadDir : string;
  join : string -> string -> string;
  save : string -> string -> option string;  (* save({title, defaultPath}) *)
  save_youtube_video : option string -> string -> Settled string
}.

(** Calls that leave the view, in the order they are made. *)
Inductive HostCall :=
| CallPlay
| CallPause
| CallSave (title defaultPath : string)
| CallInvokeSave (code : option string) (pathToSave : string)
| ConsoleWarn (msg : string).

(** The refs and variables of the component. *)
Record State := mkState {
  currentTime : Q;
  duration : Q;
  volume : Q;
  rate : option Q;            (* None: undefined *)
  playing : bool;
  playbackIndex : Z;
  hasPlayer : bool;           (* videoPlayer.value is an element *)
  uiHidden : bool;
  hideTimer : bool;           (* the 1250 ms timeout is pending *)
  choosingVideo : bool;
  videoSrc : string;
  videoTitle : option string;
  transformationIcon : option Icon;
  transformationText : AlertText;
  alertTimers : nat;          (* pending 600 ms clearing timeouts *)
  history : History;
  notes : Notify.World;       (* the notification store *)
  calls : list HostCall
}.

Definition initial_history : History :=
  {| h_volume := 1 # 2; h_time := 0; h_title := None; h_isYoutube := false;
     h_video := None; h_youtubeCode := None |}.

(** The component before any event: [useMediaControls] starts at time 0,
    volume 1, rate 1; [playbackIndex = 5]. *)
Definition initial_state : State :=
  {| currentTime := 0; duration := 0; volume := 1; rate := Some 1%Q;
     playing := false; playbackIndex := 5; hasPlayer := true;
     uiHidden := false; hideTimer := false; choosingVideo := false;
     videoSrc := EmptyString; videoTitle := None;
     transformationIcon := None; transformationText := NoText; alertTimers := 0;
     history := initial_history; notes := Notify.empty_world; calls := [] |}.

(** The component with a video of length [d] at position [t] and volume [v]. *)
Definition media (t d v : Q) : State :=
  {| currentTime := t; duration := d; volume := v; rate := Some 1%Q;
     playing := false; playbackIndex := 5; hasPlayer := true;
     uiHidden := false; hideTimer := false; choosingVideo := false;
     videoSrc := EmptyString; videoTitle := None;
     transformationIcon := None; transformationText := NoText; alertTimers := 0;
     history := initial_history; notes := Notify.empty_world; calls := [] |}.

(** *** Assignments *)

Definition with_history_time (t : Q) (h : History) : History :=
  {| h_volume := h_volume h; h_time := t; h_title := h_title h;
     h_isYoutube := h_isYoutube h; h_video := h_video h;
     h_youtubeCode := h_youtubeCode h |}.

Definition with_history_volume (v : Q) (h : History) : History :=
  {| h_volume := v; h_time := h_time h; h_title := h_title h;
     h_isYoutube := h_isYoutube h; h_video := h_video h;
     h_youtubeCode := h_youtubeCode h |}.

Definition with_history_title (t : option string) (h : History) : History :=
  {| h_volume := h_volume h; h_time := h_time h; h_title := t;
     h_isYoutube := h_isYoutube h; h_video := h_video h;
     h_youtubeCode := h_youtubeCode h |}.

Definition with_history_video (v : option string) (h : History) : History :=
  {| h_volume := h_volume h; h_time := h_time h; h_title := h_title h;
     h_isYoutube := h_isYoutube h; h_video := v;
     h_youtubeCode := h_youtubeCode h |}.

(** [currentTime.value = t], with [watch(currentTime, ...)] copying it into
    the history; a watcher runs only when the value has changed. *)
Definition set_currentTime (t : Q) (s : State) : State :=
  {| currentTime := t; duration := duration s; volume := volume s; rate := rate s;
     playing := playing s; playbackIndex := playbackIndex s; hasPlayer := hasPlayer s;
     uiHidden := uiHidden s; hideTimer := hideTimer s; choosingVideo := choosingVideo s;
     videoSrc := videoSrc s; videoTitle := videoTitle s;
     transformationIcon := transformationIcon s;
     transformationText := transformationText s; alertTimers := alertTimers s;
     history := if Qeq_bool t (currentTime s) then history s
                else with_history_time t (history s);
     notes := notes s; calls := calls s |}.

(** [volume.value = v], with [watch(volume, ...)]. *)
Definition set_volume (v : Q) (s : State) : State :=
  {| currentTime := currentTime s; duration := duration s; volume := v; rate := rate s;
     playing := playing s; playbackIndex := playbackIndex s; hasPlayer := hasPlayer s;
     uiHidden := uiHidden s; hideTimer := hideTimer s; choosingVideo := choosingVideo s;
     videoSrc := videoSrc s; videoTitle := videoTitle s;
     transformationIcon := transformationIcon s;
     transformationText := transformationText s; alertTimers := alertTimers s;
     history := if Qeq_bool v (volume s) then history s
                else with_history_volume v (history s);
     notes := notes s; calls := calls s |}.

(** [playbackIndex = i; rate.value = r] *)
Definition set_rate (i : Z) (r : option Q) (s : State) : State :=
  {| currentTime := currentTime s; duration := duration s; volume := volume s; rate := r;
     playing := playing s; playbackIndex := i; hasPlayer := hasPlayer s;
     uiHidden := uiHidden s; hideTimer := hideTimer s; choosingVideo := choosingVideo s;
     videoSrc := videoSrc s; videoTitle := videoTitle s;
     transformationIcon := transformationIcon s;
     transformationText := transformationText s; alertTimers := alertTimers s;
     history := history s; notes := notes s; calls := calls s |}.

(** [playing] follows the media element; the call made on it is logged. *)
Definition set_playing (b : bool) (c : HostCall) (s : State) : State :=
  {| currentTime := currentTime s; duration := duration s; volume := volume s; rate := rate s;
     playing := b; playbackIndex := playbackIndex s; hasPlayer := hasPlayer s;
     uiHidden := uiHidden s; hideTimer := hideTimer s; choosingVideo := choosingVideo s;
     videoSrc := videoSrc s; videoTitle := videoTitle s;
     transformationIcon := transformationIcon s;
     transformationText := transformationText s; alertTimers := alertTimers s;
     history := history s; notes := notes s; calls := calls s ++ [c] |}.

(** [uiHidden.value = hidden], the auto-hide timeout stopped or started. *)
Definition set_ui (hidden timer : bool) (s : State) : State :=
  {| currentTime := currentTime s; duration := duration s; volume := volume s; rate := rate s;
     playing := playing s; playbackIndex := playbackIndex s; hasPlayer := hasPlayer s;
     uiHidden := hidden; hideTimer := timer; choosingVideo := choosingVideo s;
     videoSrc := videoSrc s; videoTitle := videoTitle s;
     transformationIcon := transformationIcon s;
     transformationText := transformationText s; alertTimers := alertTimers s;
     history := history s; notes := notes s; calls := calls s |}.

Definition set_choosingVideo (b : bool) (s : State) : State :=
  {| currentTime := currentTime s; duration := duration s; volume := volume s; rate := rate s;
     playing := playing s; playbackIndex := playbackIndex s; hasPlayer := hasPlayer s;
     uiHidden := uiHidden s; hideTimer := hideTimer s; choosingVideo := b;
     videoSrc := videoSrc s; videoTitle := videoTitle s;
     transformationIcon := transformationIcon s;
     transformationText := transformationText s; alertTimers := alertTimers s;
     history := history s; notes := notes s; calls := calls s |}.

(** [history.value.video = v] *)
Definition set_history_video (v : option string) (s : State) : State :=
  {| currentTime := currentTime s; duration := duration s; volume := volume s; rate := rate s;
     playing := playing s; playbackIndex := playbackIndex s; hasPlayer := hasPlayer s;
     uiHidden := uiHidden s; hideTimer := hideTimer s; choosingVideo := choosingVideo s;
     videoSrc := videoSrc s; videoTitle := videoTitle s;
     transformationIcon := transformationIcon s;
     transformationText := transformationText s; alertTimers := alertTimers s;
     history := with_history_video v (history s); notes := notes s; calls := calls s |}.

(** [videoTitle.value = t; videoSrc.value = src], with [watch(videoTitle, ...)]. *)
Definition set_source (t : option string) (src : string) (s : State) : State :=
  {| currentTime := currentTime s; duration := duration s; volume := volume s; rate := rate s;
     playing := playing s; playbackIndex := playbackIndex s; hasPlayer := hasPlayer s;
     uiHidden := uiHidden s; hideTimer := hideTimer s; choosingVideo := choosingVideo s;
     videoSrc := src; videoTitle := t;
     transformationIcon := transformationIcon s;
     transformationText := transformationText s; alertTimers := alertTimers s;
     history := if bool_decide (t = videoTitle s) then history s
                else with_history_title t (history s);
     notes := notes s; calls := calls s |}.

Definition set_notes (w : Notify.World) (s : State) : State :=
  {| currentTime := currentTime s; duration := duration s; volume := volume s; rate := rate s;
     playing := playing s; playbackIndex := playbackIndex s; hasPlayer := hasPlayer s;
     uiHidden := uiHidden s; hideTimer := hideTimer s; choosingVideo := choosingVideo s;
     videoSrc := videoSrc s; videoTitle := videoTitle s;
     transformationIcon := transformationIcon s;
     transformationText := transformationText s; alertTimers := alertTimers s;
     history := history s; notes := w; calls := calls s |}.

Definition log_call (c : HostCall) (s : State) : State :=
  {| currentTime := currentTime s; duration := duration s; volume := volume s; rate := rate s;
     playing := playing s; playbackIndex := playbackIndex s; hasPlayer := hasPlayer s;
     uiHidden := uiHidden s; hideTimer := hideTimer s; choosingVideo := choosingVideo s;
     videoSrc := videoSrc s; videoTitle := videoTitle s;
     transformationIcon := transformationIcon s;
     transformationText := transformationText s; alertTimers := alertTimers s;
     history := history s; notes := notes s; calls := calls s ++ [c] |}.

(** [displayTransformationAlert(icon, text)]: sets icon and text and starts
    one more timeout that will clear them. *)
Definition displayTransformationAlert (icon : Icon) (txt : AlertText) (s : State) : State :=
  {| currentTime := currentTime s; duration := duration s; volume := volume s; rate := rate s;
     playing := playing s; playbackIndex := playbackIndex s; hasPlayer := hasPlayer s;
     uiHidden := uiHidden s; hideTimer := hideTimer s; choosingVideo := choosingVideo s;
     videoSrc := videoSrc s; videoTitle := videoTitle s;
     transformationIcon := Some icon;
     transformationText := txt; alertTimers := S (alertTimers s);
     history := history s; notes := notes s; calls := calls s |}.

(** *** Volume *)

Definition getVolumeIcon (v : Q) : Icon :=
  if Qeq_bool v 0 then VolumeX
  else if Js.ltb v (1 # 2) then Volume1
  else Volume2.

(** [`${parseFloat(volume.value.toFixed(1)) * 100}%`] *)
Definition volume_label (v : Q) : AlertText := Percent (Js.toFixed1 v * 100).

Definition increaseVolume (s : State) : State :=
  let s1 :=
    if Js.ltb (volume s) 1
    then set_volume (Js.toFixed1 (volume s + (1 # 10))) s
    else s in
  displayTransformationAlert (getVolumeIcon (volume s1)) (volume_label (volume s1)) s1.

Definition decreaseVolume (s : State) : State :=
  let s1 :=
    if Js.gtb (volume s) 0
    then set_volume (Js.toFixed1 (volume s - (1 # 10))) s
    else s in
  displayTransformationAlert (getVolumeIcon (volume s1)) (volume_label (volume s1)) s1.

(** *** Seeking

    The sums, differences and products below are exact; the code rounds each
    to a binary64, so they agree with it on values whose results are exact in
    binary64 (integer positions, amounts and durations below 2^53). *)

Definition forwardVideo (amount : Q) (s : State) : State :=
  let s1 :=
    if Qle_bool (currentTime s) (duration s - amount)
    then set_currentTime (currentTime s + amount) s
    else s in
  displayTransformationAlert FastForward (Seconds amount) s1.

Definition rewindVideo (amount : Q) (s : State) : State :=
  let s1 :=
    if Qle_bool amount (currentTime s)
    then set_currentTime (currentTime s - amount) s
    else set_currentTime 0 s in
  displayTransformationAlert Rewind (Seconds amount) s1.

Definition seekVideoSection (videoSection : Q) (s : State) : State :=
  set_currentTime (videoSection * duration s) s.

(** *** Playback rate *)

(** [PLAYBACK_SPEEDS[i]]: [undefined] outside the array. *)
Definition speed_at (i : Z) : option Q :=
  if (i <? 0)%Z then None else PLAYBACK_SPEEDS !! Z.to_nat i.

Definition changePlayrate (direction : Z) (s : State) : State :=
  let i := playbackIndex s in
  let i' :=
    if (direction =? 1)%Z
    then (if (i <? Z.of_nat (length PLAYBACK_SPEEDS) - 1)%Z then (i + 1)%Z else i)
    else (if (i >? 0)%Z then (i - 1)%Z else i) in
  set_ui false true (set_rate i' (speed_at i') s).

(** [PLAYBACK_SPEEDS.length - 1] *)
Definition last_index : Z := Z.of_nat (length PLAYBACK_SPEEDS) - 1.

(** A sequence of [changePlayrate] calls, one per direction. *)
Definition changePlayrates (directions : list Z) (s : State) : State :=
  fold_left (fun acc d => changePlayrate d acc) directions s.

(** *** Play, pause, chooser *)

Definition playVideo (h : Host) (s : State) : State :=
  if negb (hasPlayer s) then s
  else if playing s
  then displayTransformationAlert Pause NoText (set_playing false CallPause s)
  else displayTransformationAlert Play NoText (set_playing (play_resolves h) CallPlay s).

Definition showVideoChooser (h : Host) (s : State) : State :=
  let s1 := set_choosingVideo true s in
  if playing s1 then playVideo h s1 else s1.

(** [watch(() => history.value.video, ...)], run when the value went from
    [old] to [new]. *)
Definition watch_history_video (h : Host) (old new : option string) (s : State) : State :=
  if bool_decide (old = new) then s
  else if negb (Js.truthy new) && hasPlayer s
  then showVideoChooser h (if playing s then playVideo h s else s)
  else s.

(** *** Opening a source *)

(** The title [setVideoSource] computes when it is given none. *)
Definition derive_title (h : Host) (filepath : string) : option string :=
  match basename h filepath with
  | None => None
  | Some t =>
      match extname h filepath with
      | None => None
      | Some extension => Some (Js.replace ("." ++ extension) EmptyString t)
      end
  end.

Definition setVideoSource (h : Host) (filepath : string) (title : option string)
    (s : State) : Settled unit * State :=
  let title' := if Js.truthy title then title else derive_title h filepath in
  match title' with
  | None => (Rejected, s)
  | Some t =>
      let old := h_video (history s) in
      let s1 := set_choosingVideo false (set_history_video (Some filepath) s) in
      let filepath' := convertFileSrc h filepath in
      let s2 := set_source (Some t) filepath' s1 in
      (* the watchers run while [extname] is awaited *)
      let s3 := watch_history_video h old (Some filepath) s2 in
      match extname h filepath' with
      | None => (Rejected, s3)
      | Some fileExtension =>
          let s4 :=
            if negb (Js.includes VALID_EXTENSIONS (Js.toLowerCase fileExtension))
            then log_call (ConsoleWarn "WARNING: file type might not work properly") s3
            else s3 in
          (Resolved tt, playVideo h s4)
      end
  end.

(** *** Start-up *)

(** The [onBeforeMount] hook, given the value of the CLI argument
    [videoPath] ([None] when it is not a string). [setVideoSource] is started
    without being awaited. The listener the hook registers for
    "video-downloaded" runs only on that event and is left out. *)
Definition onBeforeMount (h : Host) (cli : option string) (s : State)
  : Settled unit * State :=
  let videoPath := default EmptyString cli in
  if Js.truthy cli && file_exists h videoPath then
    match extname h videoPath with
    | None => (Rejected, s)
    | Some extension =>
        let lowered := Js.toLowerCase extension in
        if Js.includes VALID_EXTENSIONS
             (Js.substring 1 (String.length lowered) lowered)
        then (Resolved tt, snd (setVideoSource h videoPath None s))
        else (Resolved tt, showVideoChooser h s)
    end
  else (Resolved tt, showVideoChooser h s).

(** *** Saving a downloaded video *)

(** [add(options)] of the notification store, called from the view. *)
Definition add (h : Host) (options : Notify.Notification) (s : State) : State :=
  set_notes (snd (Notify.add (uuid h) options (notes s))) s.

Definition not_downloaded : Notify.Notification :=
  {| Notify.opt_text := "You haven't downloaded a YouTube video yet";
     Notify.opt_type := "warning";
     Notify.opt_timeout := Some 5000%Z |}.

Definition save_failed (result : string) : Notify.Notification :=
  {| Notify.opt_text := result;
     Notify.opt_type := "error";
     Notify.opt_timeout := Some 10000%Z |}.

Definition save_succeeded : Notify.Notification :=
  {| Notify.opt_text := "Saved successfully";
     Notify.opt_type := "success";
     Notify.opt_timeout := Some 3000%Z |}.

Definition saveYouTubeVideo (h : Host) (s : State) : Settled unit * State :=
  let lastYoutubeCode := h_youtubeCode (history s) in
  let s1 := if negb (Js.truthy lastYoutubeCode) then add h not_downloaded s else s in
  let downloadDirectory := downloadDir h in
  let defaultPath :=
    join h downloadDirectory (default "video" (videoTitle s1) ++ ".mp4") in
  let s2 := log_call (CallSave "Save YouTube video" defaultPath) s1 in
  let filePath := save h "Save YouTube video" defaultPath in
  if negb (Js.truthy filePath) then (Resolved tt, s2)
  else
    let pathToSave := default EmptyString filePath in
    let s3 := log_call (CallInvokeSave lastYoutubeCode pathToSave) s2 in
    match save_youtube_video h lastYoutubeCode pathToSave with
    | Resolved result =>
        if Js.truthy (Some result)
        then (Resolved tt, add h (save_failed result) s3)
        else (Resolved tt, add h save_succeeded s3)
    | Rejected => (Resolved tt, s3)   (* no handler is attached for a rejection *)
    end.

(** *** A host for concrete runs

    The path functions follow the documentation of the Tauri path API:
    [basename] is the last portion of the path, [extname] is the extension
    without its dot ([extname("app.conf")] is ["conf"]), and both reject
    when the path has none. *)

Fixpoint after_last (c : ascii) (s : string) : option string :=
  match s with
  | EmptyString => None
  | String a s' =>
      match after_last c s' with
      | Some r => Some r
      | None => if Ascii.eqb a c then Some s' else None
      end
  end.

Definition file_name (path : string) : string :=
  default path (after_last "/" path).

Definition tauri_basename (path : string) : option string :=
  let f := file_name path in
  if String.eqb f EmptyString then None else Some f.

Definition tauri_extname (path : string) : option string :=
  let f := file_name path in
  match after_last "." f with
  | Some e =>
      if (String.length e + 1 <? String.length f)%nat then Some e else None
  | None => None
  end.

(** A desktop where the files [files] exist, the save dialog answers
    [chosen], and the save command resolves with [result]. *)
Definition desktop (files : list string) (chosen : option string)
    (result : Settled string) : Host :=
  {| uuid := Notify.letters;
     basename := tauri_basename;
     extname := tauri_extname;
     file_exists := fun p => Js.includes files p;
     convertFileSrc := fun p => "asset://localhost" ++ p;
     play_resolves := true;
     downloadDir := "/home/user/Downloads";
     join := fun a b => a ++ "/" ++ b;
     save := fun _ _ => chosen;
     save_youtube_video := fun _ _ => result |}.

(** A desktop with three files, where nothing is chosen in the save dialog. *)
Definition home : Host :=
  desktop ["/videos/clip.mp4"; "/videos/clip"; "/notes/todo.txt"] None
    (Resolved EmptyString).

End Player.

(* ===================================================================== *)
(** ** The rest of the player view: text, history events, keys, lifecycle *)
(* ===================================================================== *)

Module Text.

Definition is_space (c : ascii) : bool :=
  let n := nat_of_ascii c in
  (n =? 32)%nat || ((9 <=? n)%nat && (n <=? 13)%nat).

Definition is_digit (c : ascii) : bool :=
  let n := nat_of_ascii c in (48 <=? n)%nat && (n <=? 57)%nat.

Definition digit_value (c : ascii) : Z := Z.of_nat (nat_of_ascii c) - 48.

Fixpoint skip_spaces (s : string) : string :=
  match s with
  | String c s' => if is_space c then skip_spaces s' else s
  | EmptyString => s
  end.

(** The longest run of decimal digits at the front of the string; [acc] is
    the value read so far, [None] before the first digit. *)
Fixpoint read_digits (s : string) (acc : option Z) : option Z :=
  match s with
  | String c s' =>
      if is_digit c
      then read_digits s' (Some (10 * default 0%Z acc + digit_value c)%Z)
      else acc
  | EmptyString => acc
  end.

(** The binary64 nearest to an integer (ties to the even significand): an
    integer below 2^53 in absolute value is itself, a larger one keeps its 53
    leading bits. Overflow to [Infinity], beyond 2^1024, is left out. *)
Definition to_binary64 (n : Z) : Z :=
  let a := Z.abs n in
  if (a <? 2 ^ 53)%Z then n
  else
    let e := (Z.log2 a - 52)%Z in
    let q := (a / 2 ^ e)%Z in
    let r := (a mod 2 ^ e)%Z in
    let half := (2 ^ (e - 1))%Z in
    let q' :=
      if (r <? half)%Z then q
      else if (half <? r)%Z then (q + 1)%Z
      else if Z.even q then q else (q + 1)%Z in
    (Z.sgn n * (q' * 2 ^ e))%Z.

(** [parseInt(s, 10)] on ASCII input: leading white space, an optional
    sign, then digits up to the first other character, the integer read being
    rounded to a binary64; [None] is [NaN]. *)
Definition parseInt (s : string) : option Z :=
  to_binary64 <$>
  match skip_spaces s with
  | String "-" s' => Z.opp <$> read_digits s' None
  | String "+" s' => read_digits s' None
  | s' => read_digits s' None
  end.




(** [s.indexOf(pattern)]: -1 when the pattern does not occur. *)
Definition indexOf (pattern s : string) : Z :=
  match String.index 0 pattern s with
  | Some i => Z.of_nat i
  | None => (-1)%Z
  end.

(** [s.substring(0, stop)] for any integer [stop]: a negative one counts
    as 0. *)
Definition substring_to (stop : Z) (s : string) : string :=
  Js.substring 0 (Z.to_nat stop) s.

End Text.

Module View.
Import Player.

Definition NUM_KEYS : list string :=
  ["0"; "1"; "2"; "3"; "4"; "5"; "6"; "7"; "8"; "9"].

(** *** History fields without a watcher *)

Definition set_history (hist : History) (s : State) : State :=
  {| currentTime := currentTime s; duration := duration s; volume := volume s; rate := rate s;
     playing := playing s; playbackIndex := playbackIndex s; hasPlayer := hasPlayer s;
     uiHidden := uiHidden s; hideTimer := hideTimer s; choosingVideo := choosingVideo s;
     videoSrc := videoSrc s; videoTitle := videoTitle s;
     transformationIcon := transformationIcon s;
     transformationText := transformationText s; alertTimers := alertTimers s;
     history := hist; notes := notes s; calls := calls s |}.

(** [history.value.isYoutube = b] *)
Definition set_isYoutube (b : bool) (s : State) : State :=
  set_history
    {| h_volume := h_volume (history s); h_time := h_time (history s);
       h_title := h_title (history s); h_isYoutube := b;
       h_video := h_video (history s); h_youtubeCode := h_youtubeCode (history s) |} s.

(** [history.value.youtubeCode = code] *)
Definition set_youtubeCode (code : option string) (s : State) : State :=
  set_history
    {| h_volume := h_volume (history s); h_time := h_time (history s);
       h_title := h_title (history s); h_isYoutube := h_isYoutube (history s);
       h_video := h_video (history s); h_youtubeCode := code |} s.

(** *** Sources *)

(** [showVideoDialog]; [picked] is what the [open] dialog resolves with. *)
Definition showVideoDialog (h : Host) (picked : option string) (s : State)
  : Settled unit * State :=
  if Js.truthy picked
  then setVideoSource h (default EmptyString picked) None (set_isYoutube false s)
  else (Resolved tt, s).

(** [continueFromPrevious]; [history.time] is always a number here. *)
Definition continueFromPrevious (h : Host) (picked : option string) (s : State)
  : Settled unit * State :=
  let previousVideo := h_video (history s) in
  let previousTime := h_time (history s) in
  let previousTitle := h_title (history s) in
  let s1 := set_currentTime previousTime s in
  if Js.truthy previousVideo
  then setVideoSource h (default EmptyString previousVideo) previousTitle s1
  else showVideoDialog h picked s1.

(** The listener for "video-downloaded", with payload [{path, code}]. *)
Definition videoDownloaded (h : Host) (path code : string) (s : State)
  : Settled unit * State :=
  let s1 := set_isYoutube true s in
  match basename h path with
  | None => (Rejected, s1)
  | Some temp =>
      let index := Text.indexOf ("[" ++ code ++ "]") temp in
      let title := Text.substring_to (index - 1) temp in
      let s2 := set_youtubeCode (Some code) s1 in
      setVideoSource h path (Some title) s2
  end.

Definition video_invalid : Notify.Notification :=
  {| Notify.opt_text := "Video url invalid";
     Notify.opt_type := "error";
     Notify.opt_timeout := Some 10000%Z |}.

Definition handleVideoError (h : Host) (s : State) : State := add h video_invalid s.

(** [mouseMoveHandler] *)
Definition mouseMoveHandler (s : State) : State :=
  if choosingVideo s then set_ui true (hideTimer s) s else set_ui false true s.

(** [loopBack], the listener for "ended". *)
Definition loopBack (h : Host) (s : State) : State :=
  if hasPlayer s
  then set_playing (play_resolves h) CallPlay (set_currentTime 0 s)
  else s.

(** *** The refs outside the media controls *)

Inductive Effect :=
| CloseHelp                   (* helpWindow.close() *)
| Invoke (command : string)   (* invoke(command) *)
| SetFullscreen (b : bool)    (* appWindow.setFullscreen(b) *)
| BlurYoutubeButton.          (* youtubeButton.value?.blur() *)

Record View := mkView {
  core : State;
  volumeCache : Q;
  looping : option bool;        (* ref<boolean>(): undefined at first *)
  isFullscreen : bool;
  ended_listener : bool;        (* loopBack is attached to "ended" *)
  help_window : bool;           (* a window labelled "help" exists *)
  listeners : list string;      (* window events this component listens to *)
  effects : list Effect
}.

Definition initial_view : View :=
  {| core := initial_state; volumeCache := 1 # 2; looping := None;
     isFullscreen := false; ended_listener := false; help_window := false;
     listeners := []; effects := [] |}.

Definition on_core (f : State -> State) (v : View) : View :=
  {| core := f (core v); volumeCache := volumeCache v; looping := looping v;
     isFullscreen := isFullscreen v; ended_listener := ended_listener v;
     help_window := help_window v; listeners := listeners v; effects := effects v |}.

Definition emit (e : Effect) (v : View) : View :=
  {| core := core v; volumeCache := volumeCache v; looping := looping v;
     isFullscreen := isFullscreen v; ended_listener := ended_listener v;
     help_window := help_window v; listeners := listeners v;
     effects := effects v ++ [e] |}.

Definition show_volume (s : State) : State :=
  displayTransformationAlert (getVolumeIcon (volume s)) (volume_label (volume s)) s.

Definition mute (v : View) : View :=
  {| core := show_volume (set_volume 0 (core v));
     volumeCache := volume (core v); looping := looping v;
     isFullscreen := isFullscreen v; ended_listener := ended_listener v;
     help_window := help_window v; listeners := listeners v; effects := effects v |}.

Definition unmute (v : View) : View :=
  on_core (fun s => show_volume (set_volume (volumeCache v) s)) v.

(** The click handler of the volume button and the "m" key. *)
Definition toggleMute (v : View) : View :=
  if negb (Qeq_bool (volume (core v)) 0) then mute v else unmute v.

Definition setFullscreen (v : View) : View :=
  emit (SetFullscreen (negb (isFullscreen v)))
    {| core := core v; volumeCache := volumeCache v; looping := looping v;
       isFullscreen := negb (isFullscreen v); ended_listener := ended_listener v;
       help_window := help_window v; listeners := listeners v; effects := effects v |}.

(** [setLoopMode]: the listener is added or removed only when the video
    element exists; adding a listener that is attached changes nothing. *)
Definition setLoopMode (v : View) : View :=
  let on := default false (looping v) in
  {| core := core v; volumeCache := volumeCache v;
     looping := Some (negb on);
     isFullscreen := isFullscreen v;
     ended_listener :=
       if hasPlayer (core v) then negb on else ended_listener v;
     help_window := help_window v; listeners := listeners v; effects := effects v |}.

(** The media element reaches its end. *)
Definition ended (h : Host) (v : View) : View :=
  if ended_listener v then on_core (loopBack h) v else v.

Definition pause_if_playing (h : Host) (v : View) : View :=
  if playing (core v) then on_core (playVideo h) v else v.

Definition showHelpWindow (h : Host) (v : View) : View :=
  let v1 := pause_if_playing h v in
  let v2 :=
    if help_window v1
    then emit CloseHelp
           {| core := core v1; volumeCache := volumeCache v1; looping := looping v1;
              isFullscreen := isFullscreen v1; ended_listener := ended_listener v1;
              help_window := false; listeners := listeners v1; effects := effects v1 |}
    else v1 in
  emit (Invoke "show_help_window") v2.

Definition showYoutubeModal (h : Host) (v : View) : View :=
  emit (Invoke "show_youtube_modal") (pause_if_playing h (emit BlurYoutubeButton v)).

(** *** Keys *)

Definition keyDownEventHandler (h : Host) (key : string) (v : View) : View :=
  let k := Js.toLowerCase key in
  if String.eqb k "d" then on_core (changePlayrate 1) v
  else if String.eqb k "s" then on_core (changePlayrate 0) v
  else if String.eqb k "j" then on_core (rewindVideo 10) v
  else if String.eqb k "k" then on_core (forwardVideo 10) v
  else if String.eqb k "m" then toggleMute v
  else if String.eqb key "F1" then showHelpWindow h v
  else if String.eqb key "F11" then setFullscreen v
  else if String.eqb key "ArrowLeft" then on_core (rewindVideo 5) v
  else if String.eqb key "ArrowRight" then on_core (forwardVideo 5) v
  else if String.eqb key "ArrowUp" then on_core increaseVolume v
  else if String.eqb key "ArrowDown" then on_core decreaseVolume v
  else if Js.includes NUM_KEYS key then
    match Text.parseInt key with
    | Some n => on_core (seekVideoSection (inject_Z n / 10)) v
    | None => v   (* not reached: every key of NUM_KEYS is a digit *)
    end
  else v.

(** [keyUpEventHandler]; [picked] answers the file dialog if it is opened. *)
Definition keyUpEventHandler (h : Host) (key : string) (ctrlKey : bool)
    (picked : option string) (v : View) : View :=
  if String.eqb key " " then on_core (playVideo h) v
  else if String.eqb (Js.toLowerCase key) "o" && ctrlKey
  then on_core (fun s => snd (showVideoDialog h picked s)) v
  else if String.eqb key "/" && ctrlKey then showHelpWindow h v
  else v.

(** The body of [wheelHandler], once the throttle lets an event through. *)
Definition wheelHandler (deltaY : Q) (v : View) : View :=
  if Js.ltb deltaY 0 then on_core increaseVolume v else on_core decreaseVolume v.

Definition keyDowns (h : Host) (keys : list string) (v : View) : View :=
  fold_left (fun acc key => keyDownEventHandler h key acc) keys v.

(** *** Mounting *)

(** [window.addEventListener(type, handler)]: a handler that is attached is
    not attached twice. *)
Definition addEventListener (type : string) (l : list string) : list string :=
  if Js.includes l type then l else (l ++ [type])%list.

Definition removeEventListener (type : string) (l : list string) : list string :=
  filter (fun t => t <> type) l.

Definition with_listeners (l : list string) (v : View) : View :=
  {| core := core v; volumeCache := volumeCache v; looping := looping v;
     isFullscreen := isFullscreen v; ended_listener := ended_listener v;
     help_window := help_window v; listeners := l; effects := effects v |}.

Definition onMounted (v : View) : View :=
  let l :=
    addEventListener "wheel"
      (addEventListener "mousemove"
         (addEventListener "keyup"
            (addEventListener "keydown" (listeners v)))) in
  on_core (fun s => set_volume (h_volume (history s)) s) (with_listeners l v).

Definition onUnmounted (v : View) : View :=
  let l :=
    addEventListener "wheel"
      (removeEventListener "mousemove"
         (removeEventListener "keyup"
            (removeEventListener "keydown" (listeners v)))) in
  with_listeners l v.

(** What is open: source, title, chooser, notifications and the fields of
    the history that describe the video. *)
Definition opened (s : State) :=
  (videoSrc s, videoTitle s, choosingVideo s, notes s,
   (h_video (history s), h_title (history s), h_isYoutube (history s),
    h_youtubeCode (history s))).

(** The history holds the volume, and the position, the controls hold. *)
Definition volume_saved (s : State) : Prop := (h_volume (history s) == volume s)%Q.
Definition time_saved (s : State) : Prop := (h_time (history s) == currentTime s)%Q.

End View.

(* ===================================================================== *)
(** ** Properties of the notification store *)
(* ===================================================================== *)

Module NotifyFacts.
Import Notify.

Lemma letters_length k : String.length (letters k) = S k.
Proof. induction k as [|k IH]; simpl; [reflexivity | now rewrite IH]. Qed.

Lemma letters_inj i j : letters i = letters j -> i = j.
Proof.
  intros H. apply (f_equal String.length) in H.
  rewrite !letters_length in H. lia.
Qed.

Lemma add_entry uuid options w :
  notifications (snd (add uuid options w)) =
  (notifications w ++ [entry_of (uuid (uuid_calls w)) options])%list.
Proof. reflexivity. Qed.

Lemma findIndex_range {A} (p : A -> bool) l :
  (findIndex p l = -1 \/ 0 <= findIndex p l < Z.of_nat (length l))%Z.
Proof.
  induction l as [|x l IH]; simpl; [now left|].
  destruct (p x); [right; lia|].
  destruct (Z.eqb_spec (findIndex p l) (-1)); [now left | right; lia].
Qed.

Lemma splice1_sublist {A} (i : Z) (l : list A) : splice1 i l `sublist_of` l.
Proof. unfold splice1. rewrite <- delete_take_drop. apply sublist_delete. Qed.

Lemma remove_sublist rid w :
  notifications (snd (remove rid w)) `sublist_of` notifications w.
Proof.
  unfold remove. case (_ >? _)%Z; simpl; [apply splice1_sublist | reflexivity].
Qed.

Lemma remove_uuid_calls rid w : uuid_calls (snd (remove rid w)) = uuid_calls w.
Proof. unfold remove. now case (_ >? _)%Z. Qed.

Lemma added_app ops1 ops2 : added (ops1 ++ ops2)%list = (added ops1 ++ added ops2)%list.
Proof.
  induction ops1 as [|[o|r] ops1 IH]; simpl; [reflexivity | now rewrite IH | exact IH].
Qed.

Lemma run_snoc uuid ops o w : run uuid (ops ++ [o])%list w = step uuid (run uuid ops w) o.
Proof. unfold run. now rewrite fold_left_app. Qed.

Lemma created_ids uuid ops :
  id <$> created uuid ops = uuid <$> seq 0 (length (added ops)).
Proof.
  unfold created. rewrite fmap_imap. rewrite <- imap_seq_0.
  apply imap_ext. reflexivity.
Qed.

(** The state of the store after a run from the empty store. *)
Lemma run_invariant uuid ops :
  uuid_calls (run uuid ops empty_world) = length (added ops) /\
  notifications (run uuid ops empty_world) `sublist_of` created uuid ops /\
  (forallb is_add ops = true ->
   notifications (run uuid ops empty_world) = created uuid ops).
Proof.
  induction ops as [|o ops IH] using rev_ind; simpl.
  { repeat split; reflexivity. }
  rewrite run_snoc. destruct IH as (Hn & Hsub & Heq).
  unfold created in *. rewrite added_app, forallb_app, imap_app.
  destruct o as [options|rid]; simpl.
  - rewrite Hn, Nat.add_0_r. repeat split.
    + rewrite length_app. simpl. lia.
    + now apply sublist_app.
    + intros H. apply andb_prop in H as [H _]. now rewrite (Heq H).
  - rewrite remove_uuid_calls, !app_nil_r. repeat split.
    + exact Hn.
    + etransitivity; [apply remove_sublist | exact Hsub].
    + intros H. apply andb_prop in H as [_ H]. discriminate H.
Qed.

Section UniqueIds.
Variable uuid : nat -> string.
(** The contract of the uuid package: no id is handed out twice. *)
Hypothesis uuid_inj : forall i j, uuid i = uuid j -> i = j.

Lemma created_NoDup ops : NoDup (id <$> created uuid ops).
Proof.
  rewrite created_ids. apply NoDup_fmap_2; [|apply NoDup_seq].
  intros i j. apply uuid_inj.
Qed.

(** C2 (as amended): [add] draws its id from [uuid()], appends the new
    entry to the end of the persisted list and returns nothing; the id is
    fresh for the store as long as the generator never repeats an id and
    the stored ids came from it. The id is not handed back to the caller. *)
Theorem add_appends_fresh_entry (options : Notification) (w : World) :
  drawn uuid w ->
  fst (add uuid options w) = JsUndefined /\
  notifications (snd (add uuid options w)) =
    (notifications w ++ [entry_of (uuid (uuid_calls w)) options])%list /\
  (uuid (uuid_calls w) ∉ (id <$> notifications w)) /\
  drawn uuid (snd (add uuid options w)).
Proof.
  intros Hd. split; [reflexivity|]. split; [reflexivity|]. split.
  - intros Hin. apply list_elem_of_fmap in Hin as (e & He & Hin).
    unfold drawn in Hd. rewrite Forall_forall in Hd.
    destruct (Hd e Hin) as (k & Hk & Hid).
    rewrite Hid in He. apply uuid_inj in He. lia.
  - unfold drawn in *. simpl. apply Forall_app. split.
    + eapply Forall_impl; [exact Hd|]. intros e (k & Hk & Hid).
      exists k. split; [lia | exact Hid].
    + constructor; [|constructor]. exists (uuid_calls w). split; [lia | reflexivity].
Qed.

(** C6: after any sequence of [add] and [remove] calls on the empty
    store, no two entries share an id, the entries are a subsequence of the
    entries the [add] calls created, in call order, and without a
    [remove] they are exactly those entries. *)
Theorem run_ids_unique_and_ordered (ops : list Op) :
  NoDup (id <$> notifications (run uuid ops empty_world)) /\
  notifications (run uuid ops empty_world) `sublist_of` created uuid ops /\
  (forallb is_add ops = true ->
   notifications (run uuid ops empty_world) = created uuid ops).
Proof.
  destruct (run_invariant uuid ops) as (_ & Hsub & Heq).
  split; [|split; assumption].
  eapply sublist_NoDup; [apply created_NoDup|].
  apply fmap_sublist. exact Hsub.
Qed.
End UniqueIds.

(** C2 as stated fails: [add] returns [undefined], not the id it stored. *)
Lemma add_returns_id_counterexample :
  ~ (exists e,
       last (notifications (snd (add letters (mkNotification "x" "info" None) empty_world)))
         = Some e /\
       fst (add letters (mkNotification "x" "info" None) empty_world) = JsString (id e)).
Proof. intros (e & _ & H). discriminate H. Qed.

Lemma add_appends_fresh_entry_witness :
  fst (add letters (mkNotification "x" "info" None) empty_world) = JsUndefined /\
  notifications (snd (add letters (mkNotification "x" "info" None) empty_world)) =
    [mkNotificationWithId "u" "x" "info" 0].
Proof.
  destruct (add_appends_fresh_entry letters letters_inj
              (mkNotification "x" "info" None) empty_world) as (Hr & Hn & _).
  - constructor.
  - split; [exact Hr | exact Hn].
Defined.

Lemma run_ids_unique_and_ordered_witness :
  let ops := [OpAdd (mkNotification "a" "info" None);
              OpAdd (mkNotification "b" "error" (Some (-1)%Z));
              OpRemove "u";
              OpAdd (mkNotification "c" "success" (Some 3000%Z))] in
  NoDup (id <$> notifications (run letters ops empty_world)) /\
  id <$> notifications (run letters ops empty_world) = ["uu"; "uuu"].
Proof.
  intros ops. split; [|reflexivity].
  exact (proj1 (run_ids_unique_and_ordered letters letters_inj ops)).
Defined.

(** C8: the timeout [add] stores is [Number.MAX_SAFE_INTEGER] for the
    sentinel -1 and the given timeout when that is non-negative. *)
Theorem add_normalizes_timeout (uuid : nat -> string) (options : Notification)
    (w : World) (t : Z) :
  opt_timeout options = Some t ->
  exists e,
    notifications (snd (add uuid options w)) = (notifications w ++ [e])%list /\
    (t = (-1)%Z -> timeout e = 9007199254740991%Z) /\
    ((0 <= t)%Z -> timeout e = t).
Proof.
  intros Ht. exists (entry_of (uuid (uuid_calls w)) options).
  split; [reflexivity|]. simpl. rewrite Ht. simpl. split.
  - intros ->. reflexivity.
  - intros Hpos. destruct (Z.eqb_spec t (-1)); [lia | reflexivity].
Qed.

(** Only -1 is the sentinel: any other negative timeout is stored as it is. *)
Example add_keeps_other_negative_timeout :
  timeout <$> notifications (snd (add letters (mkNotification "x" "error" (Some (-2)%Z))
                                    empty_world)) = [(-2)%Z].
Proof. reflexivity. Qed.

Lemma add_normalizes_timeout_witness :
  exists e,
    notifications (snd (add letters (mkNotification "x" "error" (Some (-1)%Z)) empty_world))
      = [e] /\
    timeout e = 9007199254740991%Z.
Proof.
  destruct (add_normalizes_timeout letters (mkNotification "x" "error" (Some (-1)%Z))
              empty_world (-1) eq_refl) as (e & He & Hmax & _).
  exists e. split; [exact He | apply Hmax; reflexivity].
Defined.

End NotifyFacts.

(* ===================================================================== *)
(** ** Properties of the window-lifecycle helper *)
(* ===================================================================== *)

Module WindowCloseFacts.
Import WindowClose.

Lemma closeWindow_closes label e : label ∉ windows (closeWindow label e).
Proof.
  unfold closeWindow, getByLabel. simpl. case_bool_decide as Hin; [|exact Hin].
  rewrite list_elem_of_filter. tauto.
Qed.

Lemma closeWindow_shrinks label l e :
  l ∈ windows (closeWindow label e) -> l ∈ windows e.
Proof.
  unfold closeWindow. simpl. destruct (getByLabel e label); [|tauto].
  rewrite list_elem_of_filter. tauto.
Qed.

Lemma closeWindow_listeners label e :
  keydown_listeners (closeWindow label e) = keydown_listeners e /\
  blur_listeners (closeWindow label e) = blur_listeners e.
Proof. split; reflexivity. Qed.

Lemma eventHandler_shrinks label code l e :
  l ∈ windows (eventHandler label code e) -> l ∈ windows e.
Proof.
  unfold eventHandler. destruct (String.eqb code "Escape"); [|tauto].
  apply closeWindow_shrinks.
Qed.

(** Once a window is closed, further Escape handlers do not reopen it. *)
Lemma keydown_fold_closed code label ls : forall e,
  label ∉ windows e ->
  label ∉ windows (fold_left (fun acc l => eventHandler l code acc) ls e).
Proof.
  induction ls as [|l ls IH]; intros e Hout; simpl; [exact Hout|].
  apply IH. intros Hin. apply Hout. eapply eventHandler_shrinks, Hin.
Qed.

Lemma keydown_fold_escape label ls : forall e,
  label ∈ ls ->
  label ∉ windows (fold_left (fun acc l => eventHandler l "Escape" acc) ls e).
Proof.
  induction ls as [|l ls IH]; intros e Hin; simpl.
  - apply elem_of_nil in Hin. destruct Hin.
  - apply elem_of_cons in Hin as [<- | Hin].
    + apply keydown_fold_closed. apply closeWindow_closes.
    + now apply IH.
Qed.

(** Listeners attached to other windows do not run. *)
Lemma blur_fold_skip win (ls : list (string * (string * DisableBlur))) : forall e,
  (forall x, x ∈ ls -> x.1 <> win) ->
  fold_left
    (fun acc '(w, (label, d)) =>
       if String.eqb w win then blurHandler label d acc else acc) ls e = e.
Proof.
  induction ls as [|[w [l d]] ls IH]; intros e Hne; simpl; [reflexivity|].
  destruct (String.eqb_spec w win) as [Heq|_].
  - exfalso. apply (Hne (w, (l, d))); [left | exact Heq].
  - apply IH. intros x Hx. apply Hne. now right.
Qed.

Lemma writes_preserve ws : forall e,
  forallb is_write ws = true ->
  windows (dispatch_all ws e) = windows e /\
  blur_listeners (dispatch_all ws e) = blur_listeners e /\
  keydown_listeners (dispatch_all ws e) = keydown_listeners e.
Proof.
  induction ws as [|ev ws IH]; intros e Hw; simpl; [repeat split|].
  apply andb_prop in Hw as [Hev Hws].
  destruct ev; try discriminate Hev.
  destruct (IH (dispatch e (SetRef r b)) Hws) as (H1 & H2 & H3).
  unfold dispatch_all in *. simpl in *. rewrite H1, H2, H3. repeat split.
Qed.

Lemma blurHandler_spec label d e :
  blurHandler label d e = if read_flag e d then e else closeWindow label e.
Proof. destruct d as [b|r]; simpl; [now destruct b | now destruct (default false _)]. Qed.

(** C9: once the helper is set up for an open window and mounted, and
    whatever is assigned to refs in between, a blur of that window closes it
    exactly when the suppression flag read at that moment is off, and an
    Escape key-down closes it whatever the flag. *)
Theorem blur_reads_flag_live_escape_always_closes
    (label : string) (d : DisableBlur) (e0 : Env) (ws : list Event) :
  label ∈ windows e0 ->
  (forall x, x ∈ blur_listeners e0 -> x.1 <> label) ->
  forallb is_write ws = true ->
  let e := dispatch_all ws (dispatch (useWindowClose label d e0) (Mounted label)) in
  (label ∉ windows (dispatch e (Blur label)) <-> read_flag e d = false) /\
  label ∉ windows (dispatch e (KeyDown "Escape")).
Proof.
  intros Hopen Hfresh Hws e.
  destruct (writes_preserve ws (dispatch (useWindowClose label d e0) (Mounted label)) Hws)
    as (Hwin & Hblur & Hkey).
  fold e in Hwin, Hblur, Hkey. simpl in Hwin, Hblur, Hkey.
  unfold getByLabel in Hblur. rewrite bool_decide_eq_true_2 in Hblur by exact Hopen.
  split.
  - simpl. unfold run_blur. rewrite Hblur, fold_left_app.
    rewrite (blur_fold_skip label (blur_listeners e0) e Hfresh). simpl.
    rewrite String.eqb_refl, blurHandler_spec.
    destruct (read_flag e d) eqn:Hflag.
    + split; [|discriminate]. intros Hout. exfalso. apply Hout.
      rewrite Hwin. exact Hopen.
    + split; [reflexivity|]. intros _. apply closeWindow_closes.
  - simpl. unfold run_keydown. apply keydown_fold_escape.
    rewrite Hkey. apply elem_of_app. right. left.
Qed.

(** The flag is on when the helper is set up and switched off before the
    blur: the window closes. *)
Lemma blur_reads_flag_live_escape_always_closes_witness :
  let e0 := mkEnv {[ 0 := true ]} ["main"; "help"] [] [] [] in
  let e := dispatch_all [SetRef 0 false]
             (dispatch (useWindowClose "help" (IsRef 0) e0) (Mounted "help")) in
  read_flag e0 (IsRef 0) = true /\
  windows (dispatch e (Blur "help")) = ["main"] /\
  "help" ∉ windows (dispatch e (KeyDown "Escape")).
Proof.
  intros e0 e.
  assert (Hopen : "help" ∈ windows e0) by (right; left).
  assert (Hfresh : forall x, x ∈ blur_listeners e0 -> x.1 <> "help").
  { intros x Hx. apply elem_of_nil in Hx. destruct Hx. }
  destruct (blur_reads_flag_live_escape_always_closes "help" (IsRef 0) e0
              [SetRef 0 false] Hopen Hfresh eq_refl) as [_ Hesc].
  split; [reflexivity|]. split; [vm_compute; reflexivity | exact Hesc].
Defined.

End WindowCloseFacts.

(* ===================================================================== *)
(** ** Properties of the playback controller *)
(* ===================================================================== *)

Module PlayerFacts.
Import Player.

(** *** Relative seek *)

Lemma alert_currentTime icon txt s :
  currentTime (displayTransformationAlert icon txt s) = currentTime s.
Proof. reflexivity. Qed.

Lemma forwardVideo_time amount s :
  currentTime (forwardVideo amount s) =
  if Qle_bool (currentTime s) (duration s - amount)
  then (currentTime s + amount)%Q else currentTime s.
Proof. unfold forwardVideo. now destruct (Qle_bool _ _). Qed.

Lemma rewindVideo_time amount s :
  currentTime (rewindVideo amount s) =
  if Qle_bool amount (currentTime s) then (currentTime s - amount)%Q else 0%Q.
Proof. unfold rewindVideo. now destruct (Qle_bool _ _). Qed.

(** C1, where the code fails: ten seconds forward from 95 of 100 leaves the
    position at 95, it is not moved to the duration 100, while ten seconds
    back from 5 does go to the boundary 0. All the numbers are integers, which
    binary64 holds exactly. *)
Theorem forward_with_less_left_stays :
  (currentTime (forwardVideo 10 (media 95 100 1)) == 95)%Q /\
  ~ (currentTime (forwardVideo 10 (media 95 100 1)) == 100)%Q /\
  (currentTime (rewindVideo 10 (media 5 100 1)) == 0)%Q.
Proof.
  rewrite forwardVideo_time, rewindVideo_time.
  split; [reflexivity|]. split; [|reflexivity].
  vm_compute. intros H. discriminate H.
Qed.

(** Whenever less than the amount is left, [forwardVideo] leaves the
    position where it is. *)
Lemma forwardVideo_near_end amount s :
  Qle_bool (currentTime s) (duration s - amount) = false ->
  currentTime (forwardVideo amount s) = currentTime s.
Proof. intros H. now rewrite forwardVideo_time, H. Qed.

(** *** Playback rate *)

Lemma last_index_17 : last_index = 17%Z.
Proof. reflexivity. Qed.

Lemma changePlayrate_index direction s :
  playbackIndex (changePlayrate direction s) =
  (if (direction =? 1)%Z
   then (if (playbackIndex s <? last_index)%Z then playbackIndex s + 1 else playbackIndex s)
   else (if (playbackIndex s >? 0)%Z then playbackIndex s - 1 else playbackIndex s))%Z.
Proof. reflexivity. Qed.

Lemma changePlayrate_rate direction s :
  rate (changePlayrate direction s) = speed_at (playbackIndex (changePlayrate direction s)).
Proof. reflexivity. Qed.

Lemma changePlayrate_range direction s :
  (0 <= playbackIndex s <= last_index)%Z ->
  (0 <= playbackIndex (changePlayrate direction s) <= last_index)%Z.
Proof.
  intros H. rewrite changePlayrate_index.
  destruct (direction =? 1)%Z;
    [destruct (Z.ltb_spec (playbackIndex s) last_index)
    |destruct (Z.gtb_spec (playbackIndex s) 0)]; lia.
Qed.

Lemma speed_at_defined i : (0 <= i <= last_index)%Z -> is_Some (speed_at i).
Proof.
  intros H. unfold speed_at.
  destruct (Z.ltb_spec i 0); [lia|].
  apply lookup_lt_is_Some. rewrite last_index_17 in H. simpl. lia.
Qed.

Lemma changePlayrates_snoc ds d s :
  changePlayrates (ds ++ [d])%list s = changePlayrate d (changePlayrates ds s).
Proof. unfold changePlayrates. now rewrite fold_left_app. Qed.

(** [n] increases move the index up by [n], stopping at the last index. *)
Lemma increases_index n : forall s,
  (0 <= playbackIndex s <= last_index)%Z ->
  playbackIndex (changePlayrates (repeat 1%Z n) s) =
  Z.min (playbackIndex s + Z.of_nat n) last_index.
Proof.
  induction n as [|n IH]; intros s H.
  - simpl. lia.
  - change (changePlayrates (repeat 1%Z (S n)) s)
      with (changePlayrates (repeat 1%Z n) (changePlayrate 1 s)).
    rewrite IH by now apply changePlayrate_range.
    rewrite changePlayrate_index. simpl (1 =? 1)%Z. cbv iota.
    destruct (Z.ltb_spec (playbackIndex s) last_index); lia.
Qed.

Lemma changePlayrates_invariant directions s :
  (0 <= playbackIndex s <= last_index)%Z ->
  rate s = speed_at (playbackIndex s) ->
  (0 <= playbackIndex (changePlayrates directions s) <= last_index)%Z /\
  rate (changePlayrates directions s) =
    speed_at (playbackIndex (changePlayrates directions s)).
Proof.
  intros Hrange Hrate.
  induction directions as [|d ds IH] using rev_ind; [now split|].
  rewrite changePlayrates_snoc. destruct IH as [IH _]. split.
  - now apply changePlayrate_range.
  - apply changePlayrate_rate.
Qed.

(** C3 (as amended): whatever the sequence of [changePlayrate] calls, the
    index stays within the speed list and the rate is the speed at the
    index; from the default index 5, ten increases reach index 15 (speed 12),
    and twelve or more stop at the last index, 17 (speed 16). *)
Theorem changePlayrate_index_in_range (directions : list Z) (s : State) :
  (0 <= playbackIndex s <= Z.of_nat (length PLAYBACK_SPEEDS) - 1)%Z ->
  rate s = speed_at (playbackIndex s) ->
  (0 <= playbackIndex (changePlayrates directions s)
     <= Z.of_nat (length PLAYBACK_SPEEDS) - 1)%Z /\
  rate (changePlayrates directions s) =
    speed_at (playbackIndex (changePlayrates directions s)) /\
  is_Some (rate (changePlayrates directions s)) /\
  (playbackIndex (changePlayrates (repeat 1%Z 10) initial_state) = 15%Z /\
   rate (changePlayrates (repeat 1%Z 10) initial_state) = Some 12%Q) /\
  (forall n, 12 <= n ->
     playbackIndex (changePlayrates (repeat 1%Z n) initial_state) = 17%Z /\
     rate (changePlayrates (repeat 1%Z n) initial_state) = Some 16%Q).
Proof.
  intros Hrange Hrate. fold last_index in *.
  destruct (changePlayrates_invariant directions s Hrange Hrate) as [Hi Hr].
  split; [exact Hi|]. split; [exact Hr|]. split.
  { rewrite Hr. now apply speed_at_defined. }
  split; [split; reflexivity|].
  intros n Hn.
  assert (H0 : (0 <= playbackIndex initial_state <= last_index)%Z)
    by (rewrite last_index_17; simpl; lia).
  assert (H17 : playbackIndex (changePlayrates (repeat 1%Z n) initial_state) = 17%Z).
  { rewrite increases_index by exact H0.
    rewrite last_index_17. simpl playbackIndex. lia. }
  split; [exact H17|].
  destruct (changePlayrates_invariant (repeat 1%Z n) initial_state H0 eq_refl)
    as [_ Hr17].
  rewrite Hr17, H17. reflexivity.
Qed.

(** C3 as stated fails: ten increases from the default index 5 end at index
    15, two short of the last index of the eighteen speeds. *)
Lemma ten_increases_counterexample :
  playbackIndex (changePlayrates (repeat 1%Z 10) initial_state)
    <> (Z.of_nat (length PLAYBACK_SPEEDS) - 1)%Z.
Proof. vm_compute. discriminate. Qed.

Lemma changePlayrate_index_in_range_witness :
  (0 <= playbackIndex (changePlayrates [1; 1; 0; 1; 0; 0]%Z initial_state) <= 17)%Z /\
  rate (changePlayrates [1; 1; 0; 1; 0; 0]%Z initial_state) = Some 1%Q /\
  playbackIndex (changePlayrates (repeat 1%Z 12) initial_state) = 17%Z.
Proof.
  assert (Hrange : (0 <= playbackIndex initial_state
                      <= Z.of_nat (length PLAYBACK_SPEEDS) - 1)%Z)
    by (simpl; lia).
  destruct (changePlayrate_index_in_range [1; 1; 0; 1; 0; 0]%Z initial_state
              Hrange eq_refl) as (Hi & Hr & _ & _ & Hlast).
  split; [exact Hi|]. split; [exact Hr|].
  exact (proj1 (Hlast 12 (le_n 12))).
Defined.

(** *** Volume *)

Lemma ltb_comp x y u v : (x == y)%Q -> (u == v)%Q -> Js.ltb x u = Js.ltb y v.
Proof. intros H1 H2. unfold Js.ltb. now rewrite H1, H2. Qed.

Lemma gtb_comp x y u v : (x == y)%Q -> (u == v)%Q -> Js.gtb x u = Js.gtb y v.
Proof. intros H1 H2. unfold Js.gtb. now rewrite H1, H2. Qed.

Lemma toFixed1_comp x y : (x == y)%Q -> Js.toFixed1 x = Js.toFixed1 y.
Proof.
  intros H. unfold Js.toFixed1.
  assert (E0 : Qle_bool 0 x = Qle_bool 0 y) by now rewrite H.
  assert (E1 : Qfloor (x * 10 + (1 # 2)) = Qfloor (y * 10 + (1 # 2)))
    by (apply Qfloor_comp; now rewrite H).
  assert (E2 : Qfloor (- x * 10 + (1 # 2)) = Qfloor (- y * 10 + (1 # 2)))
    by (apply Qfloor_comp; now rewrite H).
  now rewrite E0, E1, E2.
Qed.

Lemma increaseVolume_volume s :
  volume (increaseVolume s) =
  if Js.ltb (volume s) 1 then Js.toFixed1 (volume s + (1 # 10)) else volume s.
Proof. unfold increaseVolume. now destruct (Js.ltb _ _). Qed.

Lemma decreaseVolume_volume s :
  volume (decreaseVolume s) =
  if Js.gtb (volume s) 0 then Js.toFixed1 (volume s - (1 # 10)) else volume s.
Proof. unfold decreaseVolume. now destruct (Js.gtb _ _). Qed.

Lemma increaseVolume_at_one s : (volume s == 1)%Q -> (volume (increaseVolume s) == 1)%Q.
Proof.
  intros H. rewrite increaseVolume_volume.
  now rewrite (ltb_comp _ 1 1 1 H (Qeq_refl 1)).
Qed.

Lemma decreaseVolume_at_zero s : (volume s == 0)%Q -> (volume (decreaseVolume s) == 0)%Q.
Proof.
  intros H. rewrite decreaseVolume_volume.
  now rewrite (gtb_comp _ 0 0 0 H (Qeq_refl 0)).
Qed.

Lemma tenths (k : Z) :
  (0 <= k <= 10)%Z ->
  k = 0%Z \/ k = 1%Z \/ k = 2%Z \/ k = 3%Z \/ k = 4%Z \/ k = 5%Z \/ k = 6%Z \/
  k = 7%Z \/ k = 8%Z \/ k = 9%Z \/ k = 10%Z.
Proof. lia. Qed.

Ltac each_tenth H :=
  destruct H as [->|[->|[->|[->|[->|[->|[->|[->|[->|[->| ->]]]]]]]]]].

(** C5 (as amended): from a volume that is a whole number of tenths between
    0 and 1, [increaseVolume] and [decreaseVolume] move to the next tenth up
    or down and stop at 1 and at 0; repeated at the boundary they change
    nothing. *)
Theorem volume_steps_on_tenths (k : Z) (s : State) :
  (0 <= k <= 10)%Z ->
  (volume s == k # 10)%Q ->
  (volume (increaseVolume s) == Z.min (k + 1) 10 # 10)%Q /\
  (volume (decreaseVolume s) == Z.max (k - 1) 0 # 10)%Q /\
  (k = 10%Z -> forall n, (volume (Nat.iter n increaseVolume s) == 1)%Q) /\
  (k = 0%Z -> forall n, (volume (Nat.iter n decreaseVolume s) == 0)%Q).
Proof.
  intros Hk Hv.
  split; [|split; [|split]].
  - rewrite increaseVolume_volume.
    rewrite (ltb_comp _ _ 1 1 Hv (Qeq_refl 1)).
    rewrite (toFixed1_comp (volume s + (1 # 10)) ((k # 10) + (1 # 10)))
      by now rewrite Hv.
    apply tenths in Hk. each_tenth Hk; try (vm_compute; reflexivity).
    exact Hv.
  - rewrite decreaseVolume_volume.
    rewrite (gtb_comp _ _ 0 0 Hv (Qeq_refl 0)).
    rewrite (toFixed1_comp (volume s - (1 # 10)) ((k # 10) - (1 # 10)))
      by now rewrite Hv.
    apply tenths in Hk. each_tenth Hk; try (vm_compute; reflexivity).
    exact Hv.
  - intros -> n. induction n as [|n IH]; simpl.
    + rewrite Hv. reflexivity.
    + now apply increaseVolume_at_one.
  - intros -> n. induction n as [|n IH]; simpl.
    + rewrite Hv. reflexivity.
    + now apply decreaseVolume_at_zero.
Qed.

(** C5 as stated fails: from the volume 31/32, inside [0,1], one increase
    gives 1.1, and from 1/32 one decrease gives -0.1. *)
Lemma volume_stays_in_unit_interval_counterexample :
  (0 <= 31 # 32 <= 1)%Q /\
  ~ (volume (increaseVolume (media 0 100 (31 # 32))) <= 1)%Q /\
  (0 <= 1 # 32 <= 1)%Q /\
  ~ (0 <= volume (decreaseVolume (media 0 100 (1 # 32))))%Q.
Proof.
  repeat split; try (vm_compute; discriminate).
  all: vm_compute; intros H; apply H; reflexivity.
Qed.

Lemma volume_steps_on_tenths_witness :
  (volume (increaseVolume (media 0 100 (9 # 10))) == 10 # 10)%Q /\
  (volume (decreaseVolume (media 0 100 (9 # 10))) == 8 # 10)%Q.
Proof.
  assert (Hk : (0 <= 9 <= 10)%Z) by lia.
  destruct (volume_steps_on_tenths 9 (media 0 100 (9 # 10)) Hk (Qeq_refl _))
    as (Hup & Hdown & _).
  split; [exact Hup | exact Hdown].
Defined.

(** *** Start-up *)

Lemma includes_valid x :
  Js.includes VALID_EXTENSIONS x = true ->
  x = "ogg" \/ x = "webm" \/ x = "mp4" \/ x = "mkv" \/ x = "mov" \/ x = "mp3".
Proof.
  unfold Js.includes, VALID_EXTENSIONS. simpl.
  destruct (String.eqb_spec x "ogg"); [tauto|].
  destruct (String.eqb_spec x "webm"); [tauto|].
  destruct (String.eqb_spec x "mp4"); [tauto|].
  destruct (String.eqb_spec x "mkv"); [tauto|].
  destruct (String.eqb_spec x "mov"); [tauto|].
  destruct (String.eqb_spec x "mp3"); [tauto|].
  discriminate.
Qed.

(** The test of the start-up hook and the test of [setVideoSource] cannot
    both accept an extension: dropping the first character of an allowed
    extension never gives an allowed one. *)
Lemma startup_test_excludes_allowed ext :
  Js.includes VALID_EXTENSIONS (Js.toLowerCase ext) = true ->
  Js.includes VALID_EXTENSIONS
    (Js.substring 1 (String.length (Js.toLowerCase ext)) (Js.toLowerCase ext)) = false.
Proof.
  intros H. apply includes_valid in H.
  destruct H as [->|[->|[->|[->|[->| ->]]]]]; reflexivity.
Qed.

Lemma playVideo_keeps h s :
  choosingVideo (playVideo h s) = choosingVideo s /\
  videoSrc (playVideo h s) = videoSrc s /\
  history (playVideo h s) = history s.
Proof. unfold playVideo. destruct (hasPlayer s), (playing s); repeat split. Qed.

Lemma showVideoChooser_shows h s :
  choosingVideo (showVideoChooser h s) = true /\
  videoSrc (showVideoChooser h s) = videoSrc s /\
  history (showVideoChooser h s) = history s.
Proof.
  unfold showVideoChooser. destruct (playing _); [|repeat split].
  destruct (playVideo_keeps h (set_choosingVideo true s)) as (-> & -> & ->).
  repeat split.
Qed.

(** C4, where it fails: whenever the path exists and [extname] hands back
    an extension of the allow-list, the start-up hook shows the chooser and
    opens nothing: the source and the history stay as they were. *)
Theorem startup_allowed_extension_shows_chooser
    (h : Host) (path ext : string) (s : State) :
  Js.truthy (Some path) = true ->
  file_exists h path = true ->
  extname h path = Some ext ->
  Js.includes VALID_EXTENSIONS (Js.toLowerCase ext) = true ->
  onBeforeMount h (Some path) s = (Resolved tt, showVideoChooser h s) /\
  choosingVideo (snd (onBeforeMount h (Some path) s)) = true /\
  videoSrc (snd (onBeforeMount h (Some path) s)) = videoSrc s /\
  history (snd (onBeforeMount h (Some path) s)) = history s.
Proof.
  intros Ht Hex Hext Hin.
  assert (E : onBeforeMount h (Some path) s = (Resolved tt, showVideoChooser h s)).
  { unfold onBeforeMount.
    rewrite Ht. simpl default. rewrite Hex, Hext. simpl andb. cbv iota.
    now rewrite (startup_test_excludes_allowed ext Hin). }
  rewrite E. split; [reflexivity|]. apply showVideoChooser_shows.
Qed.

(** The file /videos/clip.mp4 exists and its extension mp4 is in the
    allow-list, yet the chooser is shown and no source is set. *)
Lemma startup_allowed_extension_shows_chooser_witness :
  file_exists home "/videos/clip.mp4" = true /\
  extname home "/videos/clip.mp4" = Some "mp4" /\
  Js.includes VALID_EXTENSIONS "mp4" = true /\
  choosingVideo (snd (onBeforeMount home (Some "/videos/clip.mp4") initial_state)) = true /\
  videoSrc (snd (onBeforeMount home (Some "/videos/clip.mp4") initial_state)) = EmptyString /\
  h_video (history (snd (onBeforeMount home (Some "/videos/clip.mp4") initial_state))) = None.
Proof.
  destruct (startup_allowed_extension_shows_chooser home "/videos/clip.mp4" "mp4"
              initial_state eq_refl eq_refl eq_refl eq_refl) as (_ & Hc & Hs & Hh).
  split; [reflexivity|]. split; [reflexivity|]. split; [reflexivity|].
  split; [exact Hc|]. split; [rewrite Hs | rewrite Hh]; reflexivity.
Defined.

(** The hook opens the path when the extension comes with one more leading
    character, as in [".mp4"]. *)
Lemma startup_dotted_extension_opens h path s :
  Js.truthy (Some path) = true ->
  file_exists h path = true ->
  extname h path = Some ".mp4" ->
  onBeforeMount h (Some path) s = (Resolved tt, snd (setVideoSource h path None s)).
Proof.
  intros Ht Hex Hext. unfold onBeforeMount.
  rewrite Ht. simpl default. rewrite Hex, Hext. reflexivity.
Qed.

(** For an existing path without an extension [extname] rejects, and the
    hook stops before it reaches the chooser. *)
Example startup_without_extension_stops :
  onBeforeMount home (Some "/videos/clip")
    initial_state = (Rejected, initial_state).
Proof. reflexivity. Qed.

(** The chooser is shown when there is no path, when the file does not
    exist, and when the extension is not allowed. *)
Lemma startup_falls_back_to_chooser h s :
  onBeforeMount h None s = (Resolved tt, showVideoChooser h s) /\
  (forall path, file_exists h path = false ->
     onBeforeMount h (Some path) s = (Resolved tt, showVideoChooser h s)) /\
  onBeforeMount home (Some "/notes/todo.txt") s
    = (Resolved tt, showVideoChooser home s).
Proof.
  split; [reflexivity|]. split; [|reflexivity].
  intros path Hex. unfold onBeforeMount. cbv zeta. simpl default.
  rewrite Hex. now rewrite andb_false_r.
Qed.

(** *** Title derivation *)





Lemma append_cons (c : ascii) (a b : string) : String c a ++ b = String c (a ++ b).
Proof. reflexivity. Qed.


Lemma substring_prefix (a b : string) :
  String.substring 0 (String.length a) (a ++ b) = a.
Proof.
  induction a as [|c a IH].
  - change (EmptyString ++ b) with b. now destruct b.
  - rewrite append_cons. simpl. now rewrite IH.
Qed.

Lemma substring_none (n : nat) (s : string) : String.substring n 0 s = EmptyString.
Proof.
  revert n. induction s as [|c s IH]; intros [|n]; simpl; try reflexivity.
  apply IH.
Qed.






(** *** Saving without a downloaded video *)

Lemma add_notifications h options s :
  Notify.notifications (notes (add h options s)) =
  (Notify.notifications (notes s) ++
     [Notify.entry_of (uuid h (Notify.uuid_calls (notes s))) options])%list.
Proof. reflexivity. Qed.

(** C10: with no [youtubeCode] in the history, [saveYouTubeVideo] adds the
    warning "You haven't downloaded a YouTube video yet" (type warning,
    timeout 5000) and goes on: it asks for a save path, and when one is chosen
    it invokes the save command with the absent code. *)
Theorem saveYouTubeVideo_without_code_goes_on (h : Host) (s : State) :
  h_youtubeCode (history s) = None ->
  (Notify.notifications (notes s) ++
     [Notify.mkNotificationWithId (uuid h (Notify.uuid_calls (notes s)))
        "You haven't downloaded a YouTube video yet" "warning" 5000])%list
    `prefix_of` Notify.notifications (notes (snd (saveYouTubeVideo h s))) /\
  (calls s ++
     [CallSave "Save YouTube video"
        (join h (downloadDir h) (default "video" (videoTitle s) ++ ".mp4"))])%list
    `prefix_of` calls (snd (saveYouTubeVideo h s)) /\
  (forall pathToSave,
     save h "Save YouTube video"
       (join h (downloadDir h) (default "video" (videoTitle s) ++ ".mp4"))
       = Some pathToSave ->
     pathToSave <> EmptyString ->
     calls (snd (saveYouTubeVideo h s)) =
       (calls s ++
          [CallSave "Save YouTube video"
             (join h (downloadDir h) (default "video" (videoTitle s) ++ ".mp4"));
           CallInvokeSave None pathToSave])%list) /\
  (save h "Save YouTube video"
     (join h (downloadDir h) (default "video" (videoTitle s) ++ ".mp4")) = None ->
   Notify.notifications (notes (snd (saveYouTubeVideo h s))) =
     (Notify.notifications (notes s) ++
        [Notify.mkNotificationWithId (uuid h (Notify.uuid_calls (notes s)))
           "You haven't downloaded a YouTube video yet" "warning" 5000])%list).
Proof.
  intros Hcode. unfold saveYouTubeVideo. rewrite Hcode. cbv zeta.
  change (negb (Js.truthy None)) with true. cbv iota.
  change (videoTitle (add h not_downloaded s)) with (videoTitle s).
  set (defaultPath := join h (downloadDir h) (default "video" (videoTitle s) ++ ".mp4")).
  destruct (save h "Save YouTube video" defaultPath) as [p|] eqn:Hsave.
  - destruct (String.eqb_spec p EmptyString) as [->|Hp].
    + simpl. repeat split; try reflexivity.
      all: try (intros p' [= <-] Hne; now destruct Hne).
      all: try (intros Hn; discriminate Hn).
    + assert (Ht : Js.truthy (Some p) = true).
      { simpl. now apply negb_true_iff, String.eqb_neq. }
      rewrite Ht. simpl negb. cbv iota. simpl default.
      destruct (save_youtube_video h None p) as [result|].
      * destruct (Js.truthy (Some result)); simpl; repeat split.
        all: try (intros p' [= <-] _; now rewrite <- app_assoc).
        all: try (intros Hn; discriminate Hn).
        all: try (eexists; rewrite <- ?app_assoc; reflexivity).
      * simpl. repeat split.
        all: try (intros p' [= <-] _; now rewrite <- app_assoc).
        all: try (intros Hn; discriminate Hn).
        all: try (eexists; rewrite <- ?app_assoc; reflexivity).
  - simpl. repeat split; try reflexivity. intros p' Hp'. discriminate Hp'.
Qed.

Lemma saveYouTubeVideo_without_code_goes_on_witness :
  calls (snd (saveYouTubeVideo (desktop [] (Some "/out/clip.mp4") (Resolved "no code"))
                initial_state)) =
    [CallSave "Save YouTube video" "/home/user/Downloads/video.mp4";
     CallInvokeSave None "/out/clip.mp4"] /\
  [Notify.mkNotificationWithId "u" "You haven't downloaded a YouTube video yet"
     "warning" 5000]
    `prefix_of`
    Notify.notifications
      (notes (snd (saveYouTubeVideo (desktop [] (Some "/out/clip.mp4") (Resolved "no code"))
                     initial_state))).
Proof.
  destruct (saveYouTubeVideo_without_code_goes_on
              (desktop [] (Some "/out/clip.mp4") (Resolved "no code")) initial_state
              eq_refl) as (Hwarn & _ & Hinvoke & _).
  split; [|exact Hwarn].
  apply (Hinvoke "/out/clip.mp4" eq_refl). discriminate.
Defined.

End PlayerFacts.

(* ===================================================================== *)
(** ** More on the notification store: [remove] *)
(* ===================================================================== *)

Module NotifyRemoveFacts.
Import Notify.

Lemma findIndex_nonneg {A} (p : A -> bool) l :
  findIndex p l <> (-1)%Z -> (0 <= findIndex p l)%Z.
Proof.
  induction l as [|y l IHl]; simpl; [congruence|].
  destruct (p y); [lia|].
  destruct (Z.eqb_spec (findIndex p l) (-1)); [congruence|].
  intros _. specialize (IHl n). lia.
Qed.

Lemma findIndex_none {A} (p : A -> bool) l :
  findIndex p l = (-1)%Z <-> Forall (fun x => p x = false) l.
Proof.
  induction l as [|x l IH]; simpl.
  - split; [constructor | reflexivity].
  - destruct (p x) eqn:Hp.
    + split; [discriminate|]. intros H. inversion H; congruence.
    + destruct (Z.eqb_spec (findIndex p l) (-1)) as [E|E].
      * split; [|reflexivity]. intros _. constructor; [exact Hp | now apply IH].
      * pose proof (findIndex_nonneg p l E) as Hpos. split; [lia|].
        intros HF. inversion HF; subst. exfalso. apply E. now apply IH.
Qed.

(** The list [remove] leaves, entry by entry. *)
Lemma remove_cons rid x l u c :
  notifications (snd (remove rid (mkWorld (x :: l) u c))) =
  if String.eqb (id x) rid then l
  else x :: notifications (snd (remove rid (mkWorld l u c))).
Proof.
  unfold remove. simpl.
  destruct (String.eqb (id x) rid); [reflexivity|].
  destruct (Z.eqb_spec (findIndex (fun y => String.eqb (id y) rid) l) (-1)) as [E|E].
  - rewrite E. reflexivity.
  - pose proof (findIndex_nonneg _ _ E) as Hpos.
    assert (G : forall z, (0 <= z)%Z -> (z >? -1)%Z = true).
    { intros z Hz. apply Z.gtb_lt. lia. }
    rewrite !G by lia. simpl. unfold splice1.
    rewrite Z2Nat.inj_add by lia. rewrite Nat.add_1_r. reflexivity.
Qed.

Lemma remove_nil rid u c : notifications (snd (remove rid (mkWorld [] u c))) = [].
Proof. reflexivity. Qed.

Lemma remove_rest rid w :
  uuid_calls (snd (remove rid w)) = uuid_calls w /\
  console (snd (remove rid w)) = console w /\
  fst (remove rid w) = JsUndefined.
Proof. unfold remove. destruct (_ >? _)%Z; repeat split. Qed.

Lemma world_eta w : w = mkWorld (notifications w) (uuid_calls w) (console w).
Proof. now destruct w. Qed.

(** [remove] of an id that no entry carries changes nothing and raises
    nothing. *)
Theorem remove_absent_is_noop (rid : string) (w : World) :
  rid ∉ (id <$> notifications w) ->
  remove rid w = (JsUndefined, w).
Proof.
  intros Hout. unfold remove.
  assert (E : findIndex (fun x => String.eqb (id x) rid) (notifications w) = (-1)%Z).
  { apply findIndex_none. apply Forall_forall. intros x Hx.
    apply String.eqb_neq. intros Heq. apply Hout.
    apply list_elem_of_fmap. exists x. split; [now symmetry | exact Hx]. }
  rewrite E. reflexivity.
Qed.

Lemma remove_absent_is_noop_witness :
  remove "zz" (snd (add letters (mkNotification "a" "info" None) empty_world)) =
  (JsUndefined, snd (add letters (mkNotification "a" "info" None) empty_world)).
Proof.
  apply remove_absent_is_noop. simpl. intros H.
  apply list_elem_of_singleton in H. discriminate H.
Defined.

(** [remove] takes out the first entry with the id and only that one:
    the entries before and after it keep their places, later entries with
    the same id included. *)
Theorem remove_takes_first_match (rid : string) (w : World)
    (before after : list NotificationWithId) (e : NotificationWithId) :
  notifications w = (before ++ e :: after)%list ->
  id e = rid ->
  rid ∉ (id <$> before) ->
  notifications (snd (remove rid w)) = (before ++ after)%list /\
  uuid_calls (snd (remove rid w)) = uuid_calls w.
Proof.
  intros Hl He Hout. split; [|apply remove_rest].
  rewrite (world_eta w), Hl. clear Hl.
  induction before as [|x before IH]; simpl.
  - rewrite remove_cons. rewrite He, String.eqb_refl. reflexivity.
  - rewrite remove_cons.
    destruct (String.eqb_spec (id x) rid) as [Hx|Hx].
    + exfalso. apply Hout. simpl. rewrite Hx. left.
    + f_equal. apply IH. intros Hin. apply Hout. simpl. now right.
Qed.

Lemma remove_takes_first_match_witness :
  id <$> notifications
    (snd (remove "b"
       (mkWorld [mkNotificationWithId "a" "1" "info" 0;
                 mkNotificationWithId "b" "2" "info" 0;
                 mkNotificationWithId "b" "3" "info" 0] 0 []))) = ["a"; "b"] /\
  text <$> notifications
    (snd (remove "b"
       (mkWorld [mkNotificationWithId "a" "1" "info" 0;
                 mkNotificationWithId "b" "2" "info" 0;
                 mkNotificationWithId "b" "3" "info" 0] 0 []))) = ["1"; "3"].
Proof.
  assert (Hout : "b" ∉ (id <$> [mkNotificationWithId "a" "1" "info" 0])).
  { simpl. intros H. apply list_elem_of_singleton in H. discriminate H. }
  destruct (remove_takes_first_match "b"
              (mkWorld [mkNotificationWithId "a" "1" "info" 0;
                        mkNotificationWithId "b" "2" "info" 0;
                        mkNotificationWithId "b" "3" "info" 0] 0 [])
              [mkNotificationWithId "a" "1" "info" 0]
              [mkNotificationWithId "b" "3" "info" 0]
              (mkNotificationWithId "b" "2" "info" 0)
              eq_refl eq_refl Hout) as [Hn _].
  rewrite Hn. split; reflexivity.
Defined.

(** Removing the id that [add] has just drawn gives back the list as it
    was, when that id was not in the list before. *)
Theorem add_then_remove_restores (uuid : nat -> string) (options : Notification)
    (w : World) :
  uuid (uuid_calls w) ∉ (id <$> notifications w) ->
  notifications (snd (remove (uuid (uuid_calls w)) (snd (add uuid options w)))) =
  notifications w.
Proof.
  intros Hfresh.
  destruct (remove_takes_first_match (uuid (uuid_calls w)) (snd (add uuid options w))
              (notifications w) [] (entry_of (uuid (uuid_calls w)) options)
              eq_refl eq_refl Hfresh) as [Hn _].
  rewrite Hn. apply app_nil_r.
Qed.

Lemma add_then_remove_restores_witness :
  notifications
    (snd (remove "uu"
       (snd (add letters (mkNotification "b" "info" None)
          (snd (add letters (mkNotification "a" "info" None) empty_world)))))) =
  [mkNotificationWithId "u" "a" "info" 0].
Proof.
  apply (add_then_remove_restores letters (mkNotification "b" "info" None)
           (snd (add letters (mkNotification "a" "info" None) empty_world))).
  simpl. intros H. apply list_elem_of_singleton in H. discriminate H.
Defined.

Lemma filter_other_ids rid (l : list NotificationWithId) :
  rid ∉ (id <$> l) -> filter (fun x => id x <> rid) l = l.
Proof.
  induction l as [|x l IH]; intros Hout; [reflexivity|].
  rewrite filter_cons_True.
  - f_equal. apply IH. intros Hin. apply Hout. simpl. now right.
  - intros Heq. apply Hout. simpl. rewrite Heq. left.
Qed.

Lemma remove_filter rid l u c :
  NoDup (id <$> l) ->
  notifications (snd (remove rid (mkWorld l u c))) = filter (fun x => id x <> rid) l.
Proof.
  induction l as [|x l IH]; intros Hnd; [reflexivity|].
  rewrite remove_cons. simpl in Hnd. apply NoDup_cons in Hnd as [Hx Hl].
  destruct (String.eqb_spec (id x) rid) as [E|E].
  - rewrite filter_cons_False by (intros H; now apply H).
    symmetry. apply filter_other_ids. now rewrite <- E.
  - rewrite filter_cons_True by exact E. f_equal. now apply IH.
Qed.

(** When the ids of the store are pairwise distinct, [remove] leaves no
    entry with the id and keeps every other entry, in order. *)
Theorem remove_unique_id_gone (rid : string) (w : World) :
  NoDup (id <$> notifications w) ->
  (rid ∉ (id <$> notifications (snd (remove rid w)))) /\
  notifications (snd (remove rid w)) =
    filter (fun x => id x <> rid) (notifications w).
Proof.
  intros Hnd.
  assert (Hf : notifications (snd (remove rid w)) =
               filter (fun x => id x <> rid) (notifications w)).
  { rewrite (world_eta w). now apply remove_filter. }
  split; [|exact Hf].
  rewrite Hf. intros Hin. apply list_elem_of_fmap in Hin as (x & Hx & Hin).
  apply list_elem_of_filter in Hin as [Hne _]. now apply Hne.
Qed.

Lemma remove_unique_id_gone_witness :
  id <$> notifications
    (snd (remove "u"
       (run letters [OpAdd (mkNotification "a" "info" None);
                     OpAdd (mkNotification "b" "info" None)] empty_world))) = ["uu"].
Proof.
  assert (Hnd : NoDup (id <$> notifications
             (run letters [OpAdd (mkNotification "a" "info" None);
                           OpAdd (mkNotification "b" "info" None)] empty_world))).
  { simpl. apply NoDup_cons. split.
    - intros H. apply list_elem_of_singleton in H. discriminate H.
    - apply NoDup_singleton. }
  destruct (remove_unique_id_gone "u" _ Hnd) as [_ Hf].
  rewrite Hf. reflexivity.
Defined.

End NotifyRemoveFacts.

(* ===================================================================== *)
(** ** More on the window-lifecycle helper *)
(* ===================================================================== *)

Module WindowCloseMoreFacts.
Import WindowClose.

Lemma closeWindow_windows label e l :
  l ∈ windows (closeWindow label e) <-> l ∈ windows e /\ l <> label.
Proof.
  unfold closeWindow, getByLabel. simpl. case_bool_decide as Hin.
  - rewrite list_elem_of_filter. tauto.
  - split; [|tauto]. intros Hl. split; [exact Hl|]. intros ->. now apply Hin.
Qed.

(** [closeWindow] closes the window with its label and no other, and
    closing again, or closing a window that is not there, changes no
    window. *)
Theorem closeWindow_closes_only_its_label (label : string) (e : Env) :
  (forall l, l ∈ windows (closeWindow label e) <-> l ∈ windows e /\ l <> label) /\
  windows (closeWindow label (closeWindow label e)) = windows (closeWindow label e) /\
  (label ∉ windows e -> windows (closeWindow label e) = windows e).
Proof.
  split; [intros l; apply closeWindow_windows|]. split.
  - unfold closeWindow at 1. simpl. unfold getByLabel.
    rewrite bool_decide_eq_false_2; [reflexivity|].
    intros Hin. apply closeWindow_windows in Hin. tauto.
  - intros Hout. unfold closeWindow, getByLabel. simpl.
    now rewrite bool_decide_eq_false_2.
Qed.

Lemma closeWindow_closes_only_its_label_witness :
  windows (closeWindow "settings" (mkEnv ∅ ["main"; "help"] [] [] [])) = ["main"; "help"].
Proof.
  apply (closeWindow_closes_only_its_label "settings" (mkEnv ∅ ["main"; "help"] [] [] [])).
  simpl. intros H. apply elem_of_cons in H as [H|H]; [discriminate H|].
  apply list_elem_of_singleton in H. discriminate H.
Defined.

Lemma keydown_other_code code ls : forall e,
  code <> "Escape" ->
  fold_left (fun acc l => eventHandler l code acc) ls e = e.
Proof.
  induction ls as [|l ls IH]; intros e Hne; simpl; [reflexivity|].
  unfold eventHandler at 2. apply String.eqb_neq in Hne. rewrite Hne.
  apply IH. now apply String.eqb_neq.
Qed.

(** A key-down of any key but Escape changes nothing, however many
    helpers are mounted. *)
Theorem other_keys_close_nothing (code : string) (e : Env) :
  code <> "Escape" ->
  dispatch e (KeyDown code) = e.
Proof. intros Hne. simpl. unfold run_keydown. now apply keydown_other_code. Qed.

Lemma other_keys_close_nothing_witness :
  dispatch (dispatch (useWindowClose "help" (Plain false)
                        (mkEnv ∅ ["main"; "help"] [] [] [])) (Mounted "help"))
    (KeyDown "Enter") =
  dispatch (useWindowClose "help" (Plain false)
              (mkEnv ∅ ["main"; "help"] [] [] [])) (Mounted "help").
Proof. apply other_keys_close_nothing. discriminate. Defined.

Lemma keydown_keeps_unlistened code label ls : forall e,
  label ∉ ls ->
  label ∈ windows e ->
  label ∈ windows (fold_left (fun acc l => eventHandler l code acc) ls e).
Proof.
  induction ls as [|l ls IH]; intros e Hout Hin; simpl; [exact Hin|].
  apply IH.
  - intros H. apply Hout. now right.
  - unfold eventHandler. destruct (String.eqb code "Escape"); [|exact Hin].
    apply closeWindow_windows. split; [exact Hin|].
    intros ->. apply Hout. left.
Qed.

(** After the helper is unmounted its Escape handler is gone: a key-down,
    Escape included, leaves the window open. *)
Theorem escape_after_unmount_keeps_open
    (label : string) (d : DisableBlur) (code : string) (e0 : Env) :
  label ∈ windows e0 ->
  label ∉ keydown_listeners e0 ->
  label ∈ windows
    (dispatch_all [Mounted label; Unmounted label; KeyDown code]
       (useWindowClose label d e0)).
Proof.
  intros Hopen Hnone. unfold dispatch_all. simpl. unfold run_keydown. simpl.
  apply keydown_keeps_unlistened; [|exact Hopen].
  rewrite list_elem_of_filter. tauto.
Qed.

Lemma escape_after_unmount_keeps_open_witness :
  "help" ∈ windows
    (dispatch_all [Mounted "help"; Unmounted "help"; KeyDown "Escape"]
       (useWindowClose "help" (Plain false) (mkEnv ∅ ["main"; "help"] [] [] []))).
Proof.
  apply escape_after_unmount_keeps_open.
  - right. left.
  - intros H. apply elem_of_nil in H. destruct H.
Defined.

End WindowCloseMoreFacts.

(* ===================================================================== *)
(** ** More on the playback controller: how the operations compose *)
(* ===================================================================== *)

Module PlayerMoreFacts.
Import Player.

(** *** Volume steps undo each other *)

Lemma increase_tenth k s :
  (0 <= k <= 10)%Z -> (volume s == k # 10)%Q ->
  (volume (increaseVolume s) == Z.min (k + 1) 10 # 10)%Q.
Proof.
  intros Hk Hv. rewrite PlayerFacts.increaseVolume_volume.
  rewrite (PlayerFacts.ltb_comp _ _ 1 1 Hv (Qeq_refl 1)).
  rewrite (PlayerFacts.toFixed1_comp (volume s + (1 # 10)) ((k # 10) + (1 # 10)))
    by now rewrite Hv.
  apply PlayerFacts.tenths in Hk.
  destruct Hk as [->|[->|[->|[->|[->|[->|[->|[->|[->|[->| ->]]]]]]]]]];
    try (vm_compute; reflexivity).
  exact Hv.
Qed.

Lemma decrease_tenth k s :
  (0 <= k <= 10)%Z -> (volume s == k # 10)%Q ->
  (volume (decreaseVolume s) == Z.max (k - 1) 0 # 10)%Q.
Proof.
  intros Hk Hv. rewrite PlayerFacts.decreaseVolume_volume.
  rewrite (PlayerFacts.gtb_comp _ _ 0 0 Hv (Qeq_refl 0)).
  rewrite (PlayerFacts.toFixed1_comp (volume s - (1 # 10)) ((k # 10) - (1 # 10)))
    by now rewrite Hv.
  apply PlayerFacts.tenths in Hk.
  destruct Hk as [->|[->|[->|[->|[->|[->|[->|[->|[->|[->| ->]]]]]]]]]];
    try (vm_compute; reflexivity).
  exact Hv.
Qed.

(** On whole tenths, one step up then one step down gives back the volume
    unless it started at 1, and one step down then one step up gives it back
    unless it started at 0. *)
Theorem volume_steps_undo_each_other (k : Z) (s : State) :
  (0 <= k <= 10)%Z ->
  (volume s == k # 10)%Q ->
  ((k < 10)%Z -> volume (decreaseVolume (increaseVolume s)) == volume s)%Q /\
  ((0 < k)%Z -> volume (increaseVolume (decreaseVolume s)) == volume s)%Q /\
  (k = 10%Z -> volume (decreaseVolume (increaseVolume s)) == 9 # 10)%Q /\
  (k = 0%Z -> volume (increaseVolume (decreaseVolume s)) == 1 # 10)%Q.
Proof.
  intros Hk Hv.
  pose proof (increase_tenth k s Hk Hv) as Hup.
  pose proof (decrease_tenth k s Hk Hv) as Hdown.
  assert (Hup' : (0 <= Z.min (k + 1) 10 <= 10)%Z) by lia.
  assert (Hdown' : (0 <= Z.max (k - 1) 0 <= 10)%Z) by lia.
  pose proof (decrease_tenth _ _ Hup' Hup) as Hud.
  pose proof (increase_tenth _ _ Hdown' Hdown) as Hdu.
  split; [|split; [|split]].
  - intros Hlt. rewrite Hud, Hv.
    replace (Z.max (Z.min (k + 1) 10 - 1) 0) with k by lia. reflexivity.
  - intros Hlt. rewrite Hdu, Hv.
    replace (Z.min (Z.max (k - 1) 0 + 1) 10) with k by lia. reflexivity.
  - intros ->. rewrite Hud. reflexivity.
  - intros ->. rewrite Hdu. reflexivity.
Qed.

Lemma volume_steps_undo_each_other_witness :
  (volume (decreaseVolume (increaseVolume (media 0 100 (3 # 10)))) == 3 # 10)%Q.
Proof.
  assert (Hk : (0 <= 3 <= 10)%Z) by lia.
  destruct (volume_steps_undo_each_other 3 (media 0 100 (3 # 10)) Hk (Qeq_refl _))
    as (Hud & _).
  apply Hud. lia.
Defined.

(** *** Playback rate *)

(** One step up then one step down gives back the index and the speed
    unless the index was the last one, and one step down then one step up
    unless it was 0; at the ends the pair of steps moves one place away. *)
Theorem changePlayrate_steps_undo_each_other (s : State) :
  (0 <= playbackIndex s <= last_index)%Z ->
  ((playbackIndex s < last_index)%Z ->
   playbackIndex (changePlayrate 0 (changePlayrate 1 s)) = playbackIndex s /\
   rate (changePlayrate 0 (changePlayrate 1 s)) = speed_at (playbackIndex s)) /\
  ((0 < playbackIndex s)%Z ->
   playbackIndex (changePlayrate 1 (changePlayrate 0 s)) = playbackIndex s /\
   rate (changePlayrate 1 (changePlayrate 0 s)) = speed_at (playbackIndex s)) /\
  (playbackIndex s = last_index ->
   playbackIndex (changePlayrate 0 (changePlayrate 1 s)) = (last_index - 1)%Z) /\
  (playbackIndex s = 0%Z ->
   playbackIndex (changePlayrate 1 (changePlayrate 0 s)) = 1%Z).
Proof.
  intros Hr.
  assert (Hud : (playbackIndex s < last_index)%Z ->
                playbackIndex (changePlayrate 0 (changePlayrate 1 s)) = playbackIndex s).
  { intros Hlt. rewrite !PlayerFacts.changePlayrate_index. simpl (_ =? _)%Z. cbv iota.
    destruct (Z.ltb_spec (playbackIndex s) last_index); [|lia].
    destruct (Z.gtb_spec (playbackIndex s + 1) 0); lia. }
  assert (Hdu : (0 < playbackIndex s)%Z ->
                playbackIndex (changePlayrate 1 (changePlayrate 0 s)) = playbackIndex s).
  { intros Hlt. rewrite !PlayerFacts.changePlayrate_index. simpl (_ =? _)%Z. cbv iota.
    destruct (Z.gtb_spec (playbackIndex s) 0); [|lia].
    destruct (Z.ltb_spec (playbackIndex s - 1) last_index); lia. }
  split; [|split; [|split]].
  - intros Hlt. split; [now apply Hud|].
    rewrite PlayerFacts.changePlayrate_rate. now rewrite Hud.
  - intros Hlt. split; [now apply Hdu|].
    rewrite PlayerFacts.changePlayrate_rate. now rewrite Hdu.
  - intros Hlast. rewrite !PlayerFacts.changePlayrate_index. simpl (_ =? _)%Z. cbv iota.
    rewrite Hlast. rewrite Z.ltb_irrefl. reflexivity.
  - intros H0. rewrite !PlayerFacts.changePlayrate_index. simpl (_ =? _)%Z. cbv iota.
    rewrite H0. reflexivity.
Qed.

Lemma changePlayrate_steps_undo_each_other_witness :
  playbackIndex (changePlayrate 0 (changePlayrate 1 initial_state)) = 5%Z /\
  rate (changePlayrate 0 (changePlayrate 1 initial_state)) = Some 1%Q.
Proof.
  assert (Hr : (0 <= playbackIndex initial_state <= last_index)%Z)
    by (vm_compute; split; discriminate).
  destruct (changePlayrate_steps_undo_each_other initial_state Hr) as (Hud & _).
  apply Hud. reflexivity.
Defined.

End PlayerMoreFacts.

(* ===================================================================== *)
(** ** Opening, resuming and saving sources *)
(* ===================================================================== *)

Module SourceFacts.
Import Player View.

(** *** What the steps of [setVideoSource] keep *)

Lemma playVideo_fields h s :
  currentTime (playVideo h s) = currentTime s /\
  choosingVideo (playVideo h s) = choosingVideo s /\
  videoSrc (playVideo h s) = videoSrc s /\
  videoTitle (playVideo h s) = videoTitle s /\
  history (playVideo h s) = history s /\
  notes (playVideo h s) = notes s /\
  hasPlayer (playVideo h s) = hasPlayer s.
Proof. unfold playVideo. destruct (hasPlayer s) eqn:E, (playing s); simpl; repeat split; auto. Qed.

Lemma playVideo_calls h s :
  calls (playVideo h s) =
  (calls s ++ (if hasPlayer s
               then [if playing s then CallPause else CallPlay]
               else []))%list.
Proof.
  unfold playVideo. destruct (hasPlayer s), (playing s); simpl;
    try reflexivity; now rewrite app_nil_r.
Qed.

Lemma watch_truthy h old p s :
  Js.truthy (Some p) = true ->
  watch_history_video h old (Some p) s = s.
Proof.
  intros Ht. unfold watch_history_video. rewrite Ht.
  now destruct (bool_decide _).
Qed.

(** The state once the source is set, before the extension is looked at. *)
Lemma setVideoSource_steps h p title s t :
  Js.truthy (Some p) = true ->
  (if Js.truthy title then title else derive_title h p) = Some t ->
  setVideoSource h p title s =
  match extname h (convertFileSrc h p) with
  | None =>
      (Rejected,
       set_source (Some t) (convertFileSrc h p)
         (set_choosingVideo false (set_history_video (Some p) s)))
  | Some e =>
      (Resolved tt,
       playVideo h
         (if negb (Js.includes VALID_EXTENSIONS (Js.toLowerCase e))
          then log_call (ConsoleWarn "WARNING: file type might not work properly")
                 (set_source (Some t) (convertFileSrc h p)
                    (set_choosingVideo false (set_history_video (Some p) s)))
          else set_source (Some t) (convertFileSrc h p)
                 (set_choosingVideo false (set_history_video (Some p) s))))
  end.
Proof.
  intros Hp Ht. unfold setVideoSource. rewrite Ht. cbv zeta.
  rewrite (watch_truthy h _ p _ Hp). reflexivity.
Qed.

(** Opening a source records it: the path goes into the history, the
    chooser is left, source and title are set; when the extension of the
    converted source is read, the calls made are a warning exactly when that
    extension is outside the allow-list, and then the play or pause of
    [playVideo]. *)
Theorem setVideoSource_records (h : Host) (p : string) (title : option string)
    (s : State) (t : string) :
  p <> EmptyString ->
  (if Js.truthy title then title else derive_title h p) = Some t ->
  h_video (history (snd (setVideoSource h p title s))) = Some p /\
  choosingVideo (snd (setVideoSource h p title s)) = false /\
  videoSrc (snd (setVideoSource h p title s)) = convertFileSrc h p /\
  videoTitle (snd (setVideoSource h p title s)) = Some t /\
  currentTime (snd (setVideoSource h p title s)) = currentTime s /\
  (forall e, extname h (convertFileSrc h p) = Some e ->
     fst (setVideoSource h p title s) = Resolved tt /\
     calls (snd (setVideoSource h p title s)) =
       (calls s ++
        (if Js.includes VALID_EXTENSIONS (Js.toLowerCase e) then []
         else [ConsoleWarn "WARNING: file type might not work properly"]) ++
        (if hasPlayer s then [if playing s then CallPause else CallPlay] else []))%list).
Proof.
  intros Hp Ht.
  assert (Htr : Js.truthy (Some p) = true).
  { simpl. now apply negb_true_iff, String.eqb_neq. }
  rewrite (setVideoSource_steps h p title s t Htr Ht).
  assert (Hhist : forall b,
    h_video (history (set_source (Some t) b
      (set_choosingVideo false (set_history_video (Some p) s)))) = Some p).
  { intros b. unfold set_source. simpl. now destruct (bool_decide _). }
  destruct (extname h (convertFileSrc h p)) as [e|]; cbn [fst snd].
  - destruct (Js.includes VALID_EXTENSIONS (Js.toLowerCase e)) eqn:Hinc; cbn [negb];
      match goal with
      | |- context [playVideo h ?x] =>
          destruct (playVideo_fields h x) as (H1 & H2 & H3 & H4 & H5 & _ & _)
      end;
      rewrite H1, H2, H3, H4, H5, playVideo_calls;
      (split; [first [apply Hhist | exact (Hhist _)]|]);
      (split; [reflexivity|]); (split; [reflexivity|]);
      (split; [reflexivity|]); (split; [reflexivity|]);
      intros e' [= <-]; (split; [reflexivity|]); rewrite Hinc.
    + reflexivity.
    + simpl. now rewrite <- app_assoc.
  - split; [apply Hhist|]. split; [reflexivity|]. split; [reflexivity|].
    split; [reflexivity|]. split; [reflexivity|].
    intros e' He'. discriminate He'.
Qed.

Lemma setVideoSource_records_witness :
  h_video (history (snd (setVideoSource home "/docs/report.pdf" None initial_state)))
    = Some "/docs/report.pdf" /\
  videoTitle (snd (setVideoSource home "/docs/report.pdf" None initial_state))
    = Some "report" /\
  calls (snd (setVideoSource home "/docs/report.pdf" None initial_state)) =
    [ConsoleWarn "WARNING: file type might not work properly"; CallPlay].
Proof.
  assert (Hp : "/docs/report.pdf" <> EmptyString) by discriminate.
  destruct (setVideoSource_records home "/docs/report.pdf" None initial_state "report"
              Hp eq_refl) as (Hv & _ & _ & Ht & _ & Hc).
  split; [exact Hv|]. split; [exact Ht|].
  exact (proj2 (Hc "pdf" eq_refl)).
Defined.

(** *** The chooser *)

(** With a video element, showing the chooser leaves the video paused: a
    playing video gets exactly one pause call, a paused one no call. *)
Theorem showVideoChooser_pauses (h : Host) (s : State) :
  hasPlayer s = true ->
  choosingVideo (showVideoChooser h s) = true /\
  playing (showVideoChooser h s) = false /\
  calls (showVideoChooser h s) =
    (calls s ++ (if playing s then [CallPause] else []))%list.
Proof.
  intros Hp. unfold showVideoChooser. simpl playing.
  destruct (playing s) eqn:Hplay.
  - unfold playVideo. simpl. rewrite Hp, Hplay. simpl. repeat split.
  - simpl. rewrite Hplay. repeat split. now rewrite app_nil_r.
Qed.

Lemma showVideoChooser_pauses_witness :
  playing (showVideoChooser home
             (snd (setVideoSource home "/videos/clip.mp4" None initial_state))) = false /\
  calls (showVideoChooser home
           (snd (setVideoSource home "/videos/clip.mp4" None initial_state)))
    = [CallPlay; CallPause].
Proof.
  destruct (showVideoChooser_pauses home
              (snd (setVideoSource home "/videos/clip.mp4" None initial_state)) eq_refl)
    as (_ & Hplay & Hcalls).
  split; [exact Hplay | exact Hcalls].
Defined.

(** *** Resuming *)

(** [continueFromPrevious] with a saved video and title puts the position
    at the saved time and opens the saved video under the saved title; with
    no saved video and the file dialog cancelled it only sets the position. *)
Theorem continueFromPrevious_resumes (h : Host) (picked : option string) (s : State) :
  (forall p t,
     h_video (history s) = Some p -> p <> EmptyString ->
     h_title (history s) = Some t -> t <> EmptyString ->
     currentTime (snd (continueFromPrevious h picked s)) = h_time (history s) /\
     videoTitle (snd (continueFromPrevious h picked s)) = Some t /\
     videoSrc (snd (continueFromPrevious h picked s)) = convertFileSrc h p /\
     choosingVideo (snd (continueFromPrevious h picked s)) = false) /\
  (h_video (history s) = None -> picked = None ->
   continueFromPrevious h picked s =
     (Resolved tt, set_currentTime (h_time (history s)) s)).
Proof.
  split.
  - intros p t Hv Hp Ht Hne. unfold continueFromPrevious. rewrite Hv, Ht. cbv zeta.
    assert (Htr : Js.truthy (Some p) = true).
    { simpl. now apply negb_true_iff, String.eqb_neq. }
    rewrite Htr. simpl default.
    assert (Htitle : (if Js.truthy (Some t) then Some t else derive_title h p) = Some t).
    { simpl. apply String.eqb_neq in Hne. now rewrite Hne. }
    destruct (setVideoSource_records h p (Some t)
                (set_currentTime (h_time (history s)) s) t Hp Htitle)
      as (_ & Hc & Hs & Hti & Hct & _).
    rewrite Hc, Hs, Hti, Hct. repeat split.
  - intros Hv ->. unfold continueFromPrevious. rewrite Hv. reflexivity.
Qed.

Lemma continueFromPrevious_resumes_witness :
  currentTime
    (snd (continueFromPrevious home None
            (set_currentTime 75
               (snd (setVideoSource home "/videos/clip.mp4" None (media 0 100 1))))))
    = 75%Q /\
  videoTitle
    (snd (continueFromPrevious home None
            (set_currentTime 75
               (snd (setVideoSource home "/videos/clip.mp4" None (media 0 100 1))))))
    = Some "clip".
Proof.
  destruct (continueFromPrevious_resumes home None
              (set_currentTime 75
                 (snd (setVideoSource home "/videos/clip.mp4" None (media 0 100 1)))))
    as [Hres _].
  destruct (Hres "/videos/clip.mp4" "clip" eq_refl ltac:(discriminate) eq_refl
              ltac:(discriminate)) as (Ht & Hti & _).
  split; [exact Ht | exact Hti].
Defined.

(** *** Downloads *)

Lemma showVideoChooser_fields h s :
  history (showVideoChooser h s) = history s /\
  notes (showVideoChooser h s) = notes s.
Proof.
  unfold showVideoChooser. destruct (playing _); [|split; reflexivity].
  destruct (playVideo_fields h (set_choosingVideo true s)) as (_ & _ & _ & _ & H5 & H6 & _).
  now rewrite H5, H6.
Qed.

Lemma watch_fields h old new s :
  history (watch_history_video h old new s) = history s /\
  notes (watch_history_video h old new s) = notes s.
Proof.
  unfold watch_history_video. destruct (bool_decide _); [split; reflexivity|].
  destruct (_ && _); [|split; reflexivity].
  destruct (showVideoChooser_fields h (if playing s then playVideo h s else s)) as [-> ->].
  destruct (playing s); [|split; reflexivity].
  destruct (playVideo_fields h s) as (_ & _ & _ & _ & H5 & H6 & _).
  now rewrite H5, H6.
Qed.

(** [setVideoSource] leaves the download fields of the history and the
    notifications alone. *)
Lemma setVideoSource_keeps h p title s :
  h_isYoutube (history (snd (setVideoSource h p title s))) = h_isYoutube (history s) /\
  h_youtubeCode (history (snd (setVideoSource h p title s))) = h_youtubeCode (history s) /\
  notes (snd (setVideoSource h p title s)) = notes s.
Proof.
  unfold setVideoSource.
  destruct (if Js.truthy title then title else derive_title h p) as [t|];
    [|repeat split]. cbv zeta.
  assert (Hbase : forall b,
    h_isYoutube (history (set_source (Some t) b
       (set_choosingVideo false (set_history_video (Some p) s)))) = h_isYoutube (history s) /\
    h_youtubeCode (history (set_source (Some t) b
       (set_choosingVideo false (set_history_video (Some p) s)))) = h_youtubeCode (history s) /\
    notes (set_source (Some t) b
       (set_choosingVideo false (set_history_video (Some p) s))) = notes s).
  { intros b. unfold set_source. simpl. destruct (bool_decide _); repeat split. }
  destruct (extname h (convertFileSrc h p)) as [e|]; cbn [fst snd].
  - match goal with
    | |- context [playVideo h ?x] =>
        destruct (playVideo_fields h x) as (_ & _ & _ & _ & H5 & H6 & _)
    end.
    rewrite H5, H6.
    destruct (negb _); cbn [history notes log_call];
      match goal with
      | |- context [watch_history_video h ?o ?n ?x] =>
          destruct (watch_fields h o n x) as [-> ->]
      end; apply Hbase.
  - match goal with
    | |- context [watch_history_video h ?o ?n ?x] =>
        destruct (watch_fields h o n x) as [-> ->]
    end. apply Hbase.
Qed.

(** The listener for a finished download marks the history as a YouTube
    video with its code and opens the file. When the file name is a title,
    one character and the bracketed code, the title shown is that title; when
    the bracketed code is not in the file name, the title is derived from the
    file name as for a local file. *)
Theorem videoDownloaded_title (h : Host) (path code : string) (s : State) :
  (forall t sep rest,
     path <> EmptyString -> t <> EmptyString ->
     basename h path = Some (t ++ String sep ("[" ++ code ++ "]" ++ rest)) ->
     String.index 0 ("[" ++ code ++ "]") (t ++ String sep ("[" ++ code ++ "]" ++ rest))
       = Some (S (String.length t)) ->
     videoTitle (snd (videoDownloaded h path code s)) = Some t /\
     h_video (history (snd (videoDownloaded h path code s))) = Some path /\
     h_isYoutube (history (snd (videoDownloaded h path code s))) = true /\
     h_youtubeCode (history (snd (videoDownloaded h path code s))) = Some code) /\
  (forall temp,
     basename h path = Some temp ->
     String.index 0 ("[" ++ code ++ "]") temp = None ->
     videoDownloaded h path code s =
       setVideoSource h path None (set_youtubeCode (Some code) (set_isYoutube true s))).
Proof.
  split.
  - intros t sep rest Hp Ht Hb Hi. unfold videoDownloaded. rewrite Hb. cbv zeta.
    unfold Text.indexOf. rewrite Hi.
    assert (Hsub : Text.substring_to (Z.of_nat (S (String.length t)) - 1)
                     (t ++ String sep ("[" ++ code ++ "]" ++ rest)) = t).
    { unfold Text.substring_to, Js.substring.
      replace (Z.to_nat (Z.of_nat (S (String.length t)) - 1)) with (String.length t) by lia.
      rewrite Nat.sub_0_r. apply PlayerFacts.substring_prefix. }
    rewrite Hsub.
    assert (Htitle : (if Js.truthy (Some t) then Some t else derive_title h path) = Some t).
    { simpl. apply String.eqb_neq in Ht. now rewrite Ht. }
    destruct (setVideoSource_records h path (Some t)
                (set_youtubeCode (Some code) (set_isYoutube true s)) t Hp Htitle)
      as (Hv & _ & _ & Hti & _).
    destruct (setVideoSource_keeps h path (Some t)
                (set_youtubeCode (Some code) (set_isYoutube true s)))
      as (Hy & Hc & _).
    rewrite Hv, Hti, Hy, Hc. repeat split.
  - intros temp Hb Hi. unfold videoDownloaded. rewrite Hb. cbv zeta.
    unfold Text.indexOf. rewrite Hi.
    unfold Text.substring_to, Js.substring. simpl Z.to_nat.
    rewrite PlayerFacts.substring_none. reflexivity.
Qed.

Lemma videoDownloaded_title_witness :
  videoTitle (snd (videoDownloaded home "/tmp/dl/My Song [abc123].mp4" "abc123"
                     initial_state)) = Some "My Song" /\
  h_youtubeCode (history (snd (videoDownloaded home "/tmp/dl/My Song [abc123].mp4" "abc123"
                     initial_state))) = Some "abc123".
Proof.
  destruct (videoDownloaded_title home "/tmp/dl/My Song [abc123].mp4" "abc123"
              initial_state) as [Htag _].
  destruct (Htag "My Song" " "%char ".mp4" ltac:(discriminate) ltac:(discriminate)
              eq_refl eq_refl) as (Hti & _ & _ & Hc).
  split; [exact Hti | exact Hc].
Defined.

Lemma saveYouTubeVideo_with_code h s code :
  h_youtubeCode (history s) = Some code ->
  code <> EmptyString ->
  (exists extra,
     Notify.notifications (notes (snd (saveYouTubeVideo h s))) =
       (Notify.notifications (notes s) ++ extra)%list /\
     Forall (fun e => Notify.type e <> "warning") extra) /\
  (forall pathToSave,
     save h "Save YouTube video"
       (join h (downloadDir h) (default "video" (videoTitle s) ++ ".mp4"))
       = Some pathToSave ->
     pathToSave <> EmptyString ->
     calls (snd (saveYouTubeVideo h s)) =
       (calls s ++
          [CallSave "Save YouTube video"
             (join h (downloadDir h) (default "video" (videoTitle s) ++ ".mp4"));
           CallInvokeSave (Some code) pathToSave])%list).
Proof.
  intros Hcode Hne. unfold saveYouTubeVideo. rewrite Hcode. cbv zeta.
  assert (Htc : Js.truthy (Some code) = true).
  { simpl. now apply negb_true_iff, String.eqb_neq. }
  rewrite Htc. cbn [negb].
  set (defaultPath := join h (downloadDir h) (default "video" (videoTitle s) ++ ".mp4")).
  destruct (save h "Save YouTube video" defaultPath) as [p|] eqn:Hsave.
  - destruct (String.eqb_spec p EmptyString) as [->|Hp].
    + simpl. split.
      * exists []. split; [now rewrite app_nil_r | constructor].
      * intros p' [= <-] Hn. now destruct Hn.
    + assert (Ht : Js.truthy (Some p) = true).
      { simpl. now apply negb_true_iff, String.eqb_neq. }
      rewrite Ht. cbn [negb]. simpl default.
      destruct (save_youtube_video h (Some code) p) as [result|].
      * destruct (Js.truthy (Some result)); simpl; split.
        all: try (intros p' [= <-] _; now rewrite <- app_assoc).
        all: eexists; (split; [reflexivity|]);
          constructor; [discriminate | constructor].
      * simpl. split.
        -- exists []. split; [now rewrite app_nil_r | constructor].
        -- intros p' [= <-] _. now rewrite <- app_assoc.
  - simpl. split.
    + exists []. split; [now rewrite app_nil_r | constructor].
    + intros p' Hp'. discriminate Hp'.
Qed.

(** After a download has been announced with its code, saving adds no
    warning, and once a path is chosen the save command gets that code. *)
Theorem downloaded_video_saves_with_its_code
    (h : Host) (path code temp : string) (s0 : State) :
  basename h path = Some temp ->
  code <> EmptyString ->
  (exists extra,
     Notify.notifications
       (notes (snd (saveYouTubeVideo h (snd (videoDownloaded h path code s0))))) =
       (Notify.notifications (notes s0) ++ extra)%list /\
     Forall (fun e => Notify.type e <> "warning") extra) /\
  (forall pathToSave,
     save h "Save YouTube video"
       (join h (downloadDir h)
          (default "video" (videoTitle (snd (videoDownloaded h path code s0))) ++ ".mp4"))
       = Some pathToSave ->
     pathToSave <> EmptyString ->
     In (CallInvokeSave (Some code) pathToSave)
        (calls (snd (saveYouTubeVideo h (snd (videoDownloaded h path code s0)))))).
Proof.
  intros Hb Hne.
  assert (Hcode : h_youtubeCode (history (snd (videoDownloaded h path code s0))) = Some code /\
                  notes (snd (videoDownloaded h path code s0)) = notes s0).
  { unfold videoDownloaded. rewrite Hb. cbv zeta.
    match goal with
    | |- context [setVideoSource h path ?t ?x] =>
        destruct (setVideoSource_keeps h path t x) as (_ & -> & ->)
    end. split; reflexivity. }
  destruct Hcode as [Hcode Hnotes].
  destruct (saveYouTubeVideo_with_code h _ code Hcode Hne) as [Hextra Hcalls].
  split.
  - rewrite <- Hnotes. exact Hextra.
  - intros p Hs Hp. rewrite (Hcalls p Hs Hp).
    apply in_or_app. right. right. left. reflexivity.
Qed.

Lemma downloaded_video_saves_with_its_code_witness :
  In (CallInvokeSave (Some "abc123") "/out/song.mp4")
     (calls (snd (saveYouTubeVideo
                    (desktop [] (Some "/out/song.mp4") (Resolved EmptyString))
                    (snd (videoDownloaded
                            (desktop [] (Some "/out/song.mp4") (Resolved EmptyString))
                            "/tmp/dl/My Song [abc123].mp4" "abc123" initial_state))))).
Proof.
  destruct (downloaded_video_saves_with_its_code
              (desktop [] (Some "/out/song.mp4") (Resolved EmptyString))
              "/tmp/dl/My Song [abc123].mp4" "abc123" "My Song [abc123].mp4"
              initial_state eq_refl ltac:(discriminate)) as [_ Hcalls].
  apply (Hcalls "/out/song.mp4" eq_refl). discriminate.
Defined.

(** *** The clock *)




(** A number too long for a binary64 is read as the nearest one. *)
Example parseInt_rounds_to_binary64 :
  Text.parseInt "9007199254740993" = Some 9007199254740992%Z.
Proof. reflexivity. Qed.

End SourceFacts.


(* ===================================================================== *)
(** ** Keys, mute, loop and the component lifecycle *)
(* ===================================================================== *)

Module ViewFacts.
Import Player View.

(** *** Loop mode *)

Lemma setLoopMode_core v : core (setLoopMode v) = core v.
Proof. reflexivity. Qed.

Lemma setLoopMode_iter_core n v : core (Nat.iter n setLoopMode v) = core v.
Proof. induction n as [|n IH]; [reflexivity | exact IH]. Qed.

Lemma setLoopMode_step v :
  hasPlayer (core v) = true ->
  default false (looping (setLoopMode v)) = negb (default false (looping v)) /\
  ended_listener (setLoopMode v) = negb (default false (looping v)).
Proof. intros Hp. unfold setLoopMode. simpl. rewrite Hp. split; reflexivity. Qed.

(** With a video element, the loop flag and the "ended" listener go
    together through any number of toggles, each toggle flips them, and the
    end of the video restarts it from 0 exactly when the flag is on. *)
Theorem loop_toggle_tracks_listener (h : Host) (n : nat) (v : View) :
  hasPlayer (core v) = true ->
  default false (looping v) = ended_listener v ->
  default false (looping (Nat.iter n setLoopMode v)) =
    ended_listener (Nat.iter n setLoopMode v) /\
  ended_listener (Nat.iter n setLoopMode v) = xorb (Nat.odd n) (ended_listener v) /\
  (ended_listener (Nat.iter n setLoopMode v) = true ->
   currentTime (core (ended h (Nat.iter n setLoopMode v))) = 0%Q /\
   calls (core (ended h (Nat.iter n setLoopMode v))) = (calls (core v) ++ [CallPlay])%list) /\
  (ended_listener (Nat.iter n setLoopMode v) = false ->
   ended h (Nat.iter n setLoopMode v) = Nat.iter n setLoopMode v).
Proof.
  intros Hp Hinv.
  assert (Hn : default false (looping (Nat.iter n setLoopMode v)) =
                 ended_listener (Nat.iter n setLoopMode v) /\
               ended_listener (Nat.iter n setLoopMode v) =
                 xorb (Nat.odd n) (ended_listener v)).
  { induction n as [|n [IH1 IH2]].
    - simpl. split; [exact Hinv | now destruct (ended_listener v)].
    - change (Nat.iter (S n) setLoopMode v)
        with (setLoopMode (Nat.iter n setLoopMode v)).
      assert (Hw : hasPlayer (core (Nat.iter n setLoopMode v)) = true)
        by now rewrite setLoopMode_iter_core.
      destruct (setLoopMode_step _ Hw) as [-> ->]. split; [reflexivity|].
      rewrite IH1, IH2, Nat.odd_succ, <- Nat.negb_odd.
      now destruct (Nat.odd n), (ended_listener v). }
  destruct Hn as [H1 H2]. split; [exact H1|]. split; [exact H2|]. split.
  - intros Hon. unfold ended. rewrite Hon. unfold on_core. cbn [core].
    rewrite setLoopMode_iter_core. unfold loopBack. rewrite Hp. split; reflexivity.
  - intros Hoff. unfold ended. now rewrite Hoff.
Qed.

Lemma loop_toggle_tracks_listener_witness :
  ended_listener (Nat.iter 3 setLoopMode initial_view) = true /\
  currentTime (core (ended home (Nat.iter 3 setLoopMode
                                   (on_core (fun _ => media 100 100 1) initial_view)))) = 0%Q.
Proof.
  split.
  - destruct (loop_toggle_tracks_listener home 3 initial_view eq_refl eq_refl)
      as (_ & H2 & _). exact H2.
  - destruct (loop_toggle_tracks_listener home 3
                (on_core (fun _ => media 100 100 1) initial_view) eq_refl eq_refl)
      as (_ & _ & Hon & _). apply Hon. reflexivity.
Defined.

(** *** Mute *)

Lemma mute_fields v :
  volume (core (mute v)) = 0%Q /\ volumeCache (mute v) = volume (core v).
Proof. split; reflexivity. Qed.

Lemma unmute_fields v :
  volume (core (unmute v)) = volumeCache v /\
  h_volume (history (core (unmute v))) =
    (if Qeq_bool (volumeCache v) (volume (core v))
     then h_volume (history (core v)) else volumeCache v).
Proof.
  split; [reflexivity|]. unfold unmute, on_core, show_volume. simpl.
  now destruct (Qeq_bool _ _).
Qed.

(** From a volume that is not 0 the mute toggle silences the video and a
    second toggle brings back the volume, in the history too; from volume 0
    the toggle sets the remembered volume. *)
Theorem toggleMute_twice_restores (v : View) :
  (~ volume (core v) == 0 ->
   volume (core (toggleMute v)) = 0 /\
   volume (core (toggleMute (toggleMute v))) = volume (core v) /\
   h_volume (history (core (toggleMute (toggleMute v)))) = volume (core v))%Q /\
  (volume (core v) == 0 ->
   volume (core (toggleMute v)) = volumeCache v)%Q.
Proof.
  split.
  - intros Hne.
    assert (E : Qeq_bool (volume (core v)) 0 = false).
    { apply not_true_iff_false. intros H. apply Hne. now apply Qeq_bool_iff. }
    assert (T1 : toggleMute v = mute v).
    { unfold toggleMute. now rewrite E. }
    assert (T2 : toggleMute (mute v) = unmute (mute v)) by reflexivity.
    rewrite T1, T2. destruct (mute_fields v) as [Hm Hc].
    destruct (unmute_fields (mute v)) as [Hu Hh].
    split; [exact Hm|]. split; [now rewrite Hu, Hc|].
    rewrite Hh, Hc, Hm, E. reflexivity.
  - intros Hz. apply Qeq_bool_iff in Hz. unfold toggleMute. rewrite Hz. reflexivity.
Qed.

Lemma toggleMute_twice_restores_witness :
  volume (core (toggleMute (toggleMute (on_core (set_volume (3 # 10)) initial_view))))
    = (3 # 10)%Q.
Proof.
  destruct (toggleMute_twice_restores (on_core (set_volume (3 # 10)) initial_view))
    as [Hnz _].
  apply Hnz. vm_compute. discriminate.
Defined.

(** *** Keys *)

(** The letter keys act the same in upper and lower case. *)
Theorem letter_keys_ignore_case (h : Host) (key : string) (v : View) :
  In (Js.toLowerCase key) ["d"; "s"; "j"; "k"; "m"] ->
  keyDownEventHandler h key v = keyDownEventHandler h (Js.toLowerCase key) v.
Proof.
  intros Hin. unfold keyDownEventHandler. cbv zeta.
  simpl in Hin.
  destruct Hin as [H|[H|[H|[H|[H|[]]]]]]; rewrite <- H; reflexivity.
Qed.

Lemma letter_keys_ignore_case_witness :
  keyDownEventHandler home "K" (on_core (fun _ => media 20 100 1) initial_view) =
  keyDownEventHandler home "k" (on_core (fun _ => media 20 100 1) initial_view).
Proof.
  apply (letter_keys_ignore_case home "K"). simpl. tauto.
Defined.



(** *** What the keys leave alone *)

Lemma opened_set_currentTime t s : opened (set_currentTime t s) = opened s.
Proof. unfold opened, set_currentTime. simpl. now destruct (Qeq_bool _ _). Qed.

Lemma opened_set_volume x s : opened (set_volume x s) = opened s.
Proof. unfold opened, set_volume. simpl. now destruct (Qeq_bool _ _). Qed.

Lemma opened_alert i t s : opened (displayTransformationAlert i t s) = opened s.
Proof. reflexivity. Qed.

Lemma opened_playVideo h s : opened (playVideo h s) = opened s.
Proof. unfold playVideo. destruct (hasPlayer s), (playing s); reflexivity. Qed.

Lemma opened_forward a s : opened (forwardVideo a s) = opened s.
Proof.
  unfold forwardVideo. rewrite opened_alert.
  destruct (Qle_bool _ _); [apply opened_set_currentTime | reflexivity].
Qed.

Lemma opened_rewind a s : opened (rewindVideo a s) = opened s.
Proof.
  unfold rewindVideo. rewrite opened_alert.
  destruct (Qle_bool _ _); apply opened_set_currentTime.
Qed.

Lemma opened_increase s : opened (increaseVolume s) = opened s.
Proof.
  unfold increaseVolume. rewrite opened_alert.
  destruct (Js.ltb _ _); [apply opened_set_volume | reflexivity].
Qed.

Lemma opened_decrease s : opened (decreaseVolume s) = opened s.
Proof.
  unfold decreaseVolume. rewrite opened_alert.
  destruct (Js.gtb _ _); [apply opened_set_volume | reflexivity].
Qed.

Lemma opened_toggleMute v : opened (core (toggleMute v)) = opened (core v).
Proof.
  unfold toggleMute. destruct (negb _); cbn [core mute unmute on_core];
    unfold show_volume; rewrite opened_alert; apply opened_set_volume.
Qed.

Lemma opened_showHelpWindow h v : opened (core (showHelpWindow h v)) = opened (core v).
Proof.
  unfold showHelpWindow, pause_if_playing. cbv zeta.
  destruct (playing (core v)); cbn [core on_core emit];
    destruct (help_window _); cbn [core emit]; try reflexivity;
    apply opened_playVideo.
Qed.

Lemma opened_keyDown h key v :
  opened (core (keyDownEventHandler h key v)) = opened (core v).
Proof.
  unfold keyDownEventHandler. cbv zeta.
  repeat (match goal with
          | |- context [if String.eqb ?a ?b then _ else _] =>
              destruct (String.eqb a b)
          end;
          [cbn [core on_core];
           first [ reflexivity | apply opened_rewind | apply opened_forward
                 | apply opened_increase | apply opened_decrease
                 | apply opened_toggleMute | apply opened_showHelpWindow ] |]).
  destruct (Js.includes NUM_KEYS key); [|reflexivity].
  destruct (Text.parseInt key); [|reflexivity].
  cbn [core on_core]. apply opened_set_currentTime.
Qed.

(** No sequence of key-downs changes what is open: the source, the title,
    the chooser, the video fields of the history and the notifications stay
    as they are. *)
Theorem keys_leave_the_source (h : Host) (keys : list string) (v : View) :
  opened (core (keyDowns h keys v)) = opened (core v).
Proof.
  revert v. induction keys as [|key keys IH]; intros v; [reflexivity|].
  unfold keyDowns in *. simpl. rewrite IH. apply opened_keyDown.
Qed.

(** *** The history follows volume and position *)

Lemma saved_set_currentTime t s :
  (volume_saved s -> volume_saved (set_currentTime t s)) /\
  (time_saved s -> time_saved (set_currentTime t s)).
Proof.
  unfold volume_saved, time_saved, set_currentTime. simpl.
  destruct (Qeq_bool t (currentTime s)) eqn:E; simpl.
  - split; [tauto|]. apply Qeq_bool_iff in E. intros H. now rewrite H, E.
  - split; [tauto | reflexivity].
Qed.

Lemma saved_set_volume x s :
  (volume_saved s -> volume_saved (set_volume x s)) /\
  (time_saved s -> time_saved (set_volume x s)).
Proof.
  unfold volume_saved, time_saved, set_volume. simpl.
  destruct (Qeq_bool x (volume s)) eqn:E; simpl.
  - split; [|tauto]. apply Qeq_bool_iff in E. intros H. now rewrite H, E.
  - split; [reflexivity | tauto].
Qed.

Lemma saved_alert i t s :
  (volume_saved s -> volume_saved (displayTransformationAlert i t s)) /\
  (time_saved s -> time_saved (displayTransformationAlert i t s)).
Proof. split; tauto. Qed.

Lemma saved_playVideo h s :
  (volume_saved s -> volume_saved (playVideo h s)) /\
  (time_saved s -> time_saved (playVideo h s)).
Proof. unfold playVideo. destruct (hasPlayer s), (playing s); split; tauto. Qed.

Lemma saved_changePlayrate d s :
  (volume_saved s -> volume_saved (changePlayrate d s)) /\
  (time_saved s -> time_saved (changePlayrate d s)).
Proof. split; tauto. Qed.

Lemma saved_forward a s :
  (volume_saved s -> volume_saved (forwardVideo a s)) /\
  (time_saved s -> time_saved (forwardVideo a s)).
Proof.
  unfold forwardVideo. destruct (Qle_bool _ _).
  - destruct (saved_set_currentTime (currentTime s + a) s). split; tauto.
  - split; tauto.
Qed.

Lemma saved_rewind a s :
  (volume_saved s -> volume_saved (rewindVideo a s)) /\
  (time_saved s -> time_saved (rewindVideo a s)).
Proof.
  unfold rewindVideo. destruct (Qle_bool _ _).
  - destruct (saved_set_currentTime (currentTime s - a) s). split; tauto.
  - destruct (saved_set_currentTime 0 s). split; tauto.
Qed.

Lemma saved_increase s :
  (volume_saved s -> volume_saved (increaseVolume s)) /\
  (time_saved s -> time_saved (increaseVolume s)).
Proof.
  unfold increaseVolume. destruct (Js.ltb _ _).
  - destruct (saved_set_volume (Js.toFixed1 (volume s + (1 # 10))) s). split; tauto.
  - split; tauto.
Qed.

Lemma saved_decrease s :
  (volume_saved s -> volume_saved (decreaseVolume s)) /\
  (time_saved s -> time_saved (decreaseVolume s)).
Proof.
  unfold decreaseVolume. destruct (Js.gtb _ _).
  - destruct (saved_set_volume (Js.toFixed1 (volume s - (1 # 10))) s). split; tauto.
  - split; tauto.
Qed.

Lemma saved_toggleMute v :
  (volume_saved (core v) -> volume_saved (core (toggleMute v))) /\
  (time_saved (core v) -> time_saved (core (toggleMute v))).
Proof.
  unfold toggleMute. destruct (negb _); cbn [core mute unmute on_core]; unfold show_volume.
  - destruct (saved_set_volume 0 (core v)). split; tauto.
  - destruct (saved_set_volume (volumeCache v) (core v)). split; tauto.
Qed.

Lemma saved_showHelpWindow h v :
  (volume_saved (core v) -> volume_saved (core (showHelpWindow h v))) /\
  (time_saved (core v) -> time_saved (core (showHelpWindow h v))).
Proof.
  unfold showHelpWindow, pause_if_playing. cbv zeta.
  destruct (playing (core v)); cbn [core on_core emit];
    destruct (help_window _); cbn [core emit]; try (split; tauto);
    apply saved_playVideo.
Qed.

Lemma saved_keyDown h key v :
  (volume_saved (core v) -> volume_saved (core (keyDownEventHandler h key v))) /\
  (time_saved (core v) -> time_saved (core (keyDownEventHandler h key v))).
Proof.
  unfold keyDownEventHandler. cbv zeta.
  repeat (match goal with
          | |- context [if String.eqb ?a ?b then _ else _] =>
              destruct (String.eqb a b)
          end;
          [cbn [core on_core];
           first [ apply saved_changePlayrate | apply saved_rewind | apply saved_forward
                 | apply saved_increase | apply saved_decrease
                 | apply saved_toggleMute | apply saved_showHelpWindow
                 | split; tauto ] |]).
  destruct (Js.includes NUM_KEYS key); [|split; tauto].
  destruct (Text.parseInt key); [|split; tauto].
  cbn [core on_core]. apply saved_set_currentTime.
Qed.

(** Through any sequence of key-downs, a history that holds the current
    volume goes on holding it, and likewise for the position. *)
Theorem history_follows_keys (h : Host) (keys : list string) (v : View) :
  (volume_saved (core v) -> volume_saved (core (keyDowns h keys v))) /\
  (time_saved (core v) -> time_saved (core (keyDowns h keys v))).
Proof.
  revert v. induction keys as [|key keys IH]; intros v; [split; tauto|].
  unfold keyDowns in *. simpl.
  destruct (IH (keyDownEventHandler h key v)) as [IHv IHt].
  destruct (saved_keyDown h key v) as [Hv Ht]. split; auto.
Qed.

Lemma history_follows_keys_witness :
  (h_time (history (core (keyDowns home ["k"; "ArrowLeft"; "7"]
                            (on_core (fun _ => media 0 100 1) initial_view))))
     == 70)%Q.
Proof.
  destruct (history_follows_keys home ["k"; "ArrowLeft"; "7"]
              (on_core (fun _ => media 0 100 1) initial_view)) as [_ Ht].
  unfold time_saved in Ht. rewrite Ht; reflexivity.
Defined.

(** *** Mounting and unmounting *)

Lemma onMounted_volume_saved v : volume_saved (core (onMounted v)).
Proof.
  unfold onMounted, on_core, with_listeners, volume_saved, set_volume. simpl.
  destruct (Qeq_bool _ _); reflexivity.
Qed.

(** The volume survives a restart: once mounted, whatever keys are
    pressed, a component mounted later over the same history starts with the
    volume the earlier one ended with. *)
Theorem volume_survives_restart (h : Host) (keys : list string) (v next : View) :
  history (core next) = history (core (keyDowns h keys (onMounted v))) ->
  (volume (core (onMounted next)) == volume (core (keyDowns h keys (onMounted v))))%Q.
Proof.
  intros Hh.
  destruct (history_follows_keys h keys (onMounted v)) as [Hv _].
  specialize (Hv (onMounted_volume_saved v)). unfold volume_saved in Hv.
  rewrite <- Hv, <- Hh. reflexivity.
Qed.

Lemma volume_survives_restart_witness :
  (volume (core (onMounted
     (on_core (fun _ => set_history
                 (history (core (keyDowns home ["ArrowUp"; "ArrowUp"]
                                   (onMounted initial_view))))
                 initial_state) initial_view))) == 7 # 10)%Q.
Proof.
  rewrite (volume_survives_restart home ["ArrowUp"; "ArrowUp"] initial_view
             (on_core (fun _ => set_history
                 (history (core (keyDowns home ["ArrowUp"; "ArrowUp"]
                                   (onMounted initial_view))))
                 initial_state) initial_view) eq_refl).
  reflexivity.
Defined.

Lemma addEventListener_in type l : type ∈ addEventListener type l.
Proof.
  unfold addEventListener, Js.includes.
  destruct (existsb (String.eqb type) l) eqn:E.
  - apply existsb_exists in E as (x & Hx & Heq).
    apply String.eqb_eq in Heq. subst x. now apply list_elem_of_In.
  - apply elem_of_app. right. left.
Qed.

Lemma addEventListener_other type t l :
  t <> type -> (t ∈ addEventListener type l <-> t ∈ l).
Proof.
  intros Hne. unfold addEventListener. destruct (Js.includes l type); [tauto|].
  rewrite elem_of_app, list_elem_of_singleton. tauto.
Qed.

(** Unmounting detaches the key and mouse-move handlers but leaves the
    wheel handler attached: it is attached even when the component was never
    mounted. *)
Theorem unmount_leaves_wheel_listener (v : View) :
  "wheel" ∈ listeners (onUnmounted v) /\
  ("keydown" ∉ listeners (onUnmounted v)) /\
  ("keyup" ∉ listeners (onUnmounted v)) /\
  ("mousemove" ∉ listeners (onUnmounted v)) /\
  ("keydown" ∈ listeners (onMounted v) /\ "keyup" ∈ listeners (onMounted v) /\
   "mousemove" ∈ listeners (onMounted v) /\ "wheel" ∈ listeners (onMounted v)).
Proof.
  unfold onUnmounted, onMounted, removeEventListener. cbn [listeners with_listeners on_core].
  split; [apply addEventListener_in|].
  split; [|split; [|split]].
  - rewrite addEventListener_other by discriminate.
    rewrite !list_elem_of_filter. tauto.
  - rewrite addEventListener_other by discriminate.
    rewrite !list_elem_of_filter. tauto.
  - rewrite addEventListener_other by discriminate.
    rewrite !list_elem_of_filter. tauto.
  - split; [|split; [|split]].
    + rewrite !addEventListener_other by discriminate. apply addEventListener_in.
    + rewrite !addEventListener_other by discriminate. apply addEventListener_in.
    + rewrite !addEventListener_other by discriminate. apply addEventListener_in.
    + apply addEventListener_in.
Qed.

(** *** Space *)

(** When [play()] resolves and the video element is there, two releases
    of the space bar bring the playing state back, with one play and one
    pause call between. *)
Theorem space_twice_restores_playing (h : Host) (picked : option string) (v : View) :
  hasPlayer (core v) = true ->
  play_resolves h = true ->
  playing (core (keyUpEventHandler h " " false picked
                   (keyUpEventHandler h " " false picked v))) = playing (core v) /\
  playing (core (keyUpEventHandler h " " false picked v)) = negb (playing (core v)) /\
  calls (core (keyUpEventHandler h " " false picked
                 (keyUpEventHandler h " " false picked v))) =
    (calls (core v) ++
       (if playing (core v) then [CallPause; CallPlay] else [CallPlay; CallPause]))%list.
Proof.
  intros Hp Hplay.
  change (keyUpEventHandler h " " false picked v) with (on_core (playVideo h) v).
  change (keyUpEventHandler h " " false picked (on_core (playVideo h) v))
    with (on_core (playVideo h) (on_core (playVideo h) v)).
  cbn [core on_core]. unfold playVideo. rewrite Hp. cbn [negb].
  destruct (playing (core v)) eqn:E; simpl; rewrite ?Hp, ?Hplay; simpl;
    rewrite <- ?app_assoc; repeat split.
Qed.

Lemma space_twice_restores_playing_witness :
  calls (core (keyUpEventHandler home " " false None
                 (keyUpEventHandler home " " false None initial_view)))
    = [CallPlay; CallPause].
Proof.
  destruct (space_twice_restores_playing home None initial_view eq_refl eq_refl)
    as (_ & _ & Hc).
  exact Hc.
Defined.

End ViewFacts.
